(** * Verification model of img-trans-client

    Shallow embedding of [src/services/api.ts] (the [ApiService] class, whose
    text is reproduced at the end of [src/README.md]) and of the event handlers
    of [src/components/ImageUploader.tsx].

    JavaScript strings are sequences of UTF-16 code units: [list Z].
    JavaScript values are the values [JSON.parse] can produce, plus
    [undefined]. *)

From Stdlib Require Import ZArith List String Ascii Bool Lia QArith Qround Qpower Lqa Sorted.
Import ListNotations.
Set Warnings "-register-all".
Open Scope Z_scope.

(** ** JavaScript strings *)

Definition jsstring := list Z.

(** A string literal of the source, as code units. *)
Definition str (s : string) : jsstring :=
  map (fun c => Z.of_nat (nat_of_ascii c)) (list_ascii_of_string s).

Fixpoint jsstring_eqb (a b : jsstring) : bool :=
  match a, b with
  | [], [] => true
  | x :: a', y :: b' => (x =? y) && jsstring_eqb a' b'
  | _, _ => false
  end.

(** [s.startsWith(p)] *)
Fixpoint starts_with (p s : jsstring) : bool :=
  match p, s with
  | [], _ => true
  | x :: p', y :: s' => (x =? y) && starts_with p' s'
  | _ :: _, [] => false
  end.

(** [s.indexOf(p) !== -1] *)
Fixpoint contains (p s : jsstring) : bool :=
  starts_with p s || match s with [] => false | _ :: s' => contains p s' end.

(** Decimal digits of a non-negative integer (the [${n}] of a template
    literal for an integral Number). *)
Fixpoint digits_aux (fuel : nat) (n : Z) (acc : jsstring) : jsstring :=
  match fuel with
  | O => acc
  | S f =>
      let acc' := (48 + n mod 10) :: acc in
      if n <? 10 then acc' else digits_aux f (n / 10) acc'
  end.

Definition dec (n : Z) : jsstring :=
  if n <? 0 then 45 :: digits_aux (Z.to_nat (Z.log2 (- n)) + 1) (- n) []
  else digits_aux (Z.to_nat (Z.log2 n) + 1) n [].

(** A JSON text of the examples, written with an apostrophe wherever the
    text has a double quote. *)
Definition json_text (s : string) : jsstring :=
  map (fun c => if c =? 39 then 34 else c) (str s).

(** ** JavaScript values *)

(** A Number literal is kept as [m * 10^e] (exact decimal value). *)
Inductive jsval : Type :=
| JUndefined
| JNull
| JBool (b : bool)
| JNum (m e : Z)
| JStr (s : jsstring)
| JArr (xs : list jsval)
| JObj (props : list (jsstring * jsval)).

(** Own property lookup on a parsed object: with duplicate keys,
    [JSON.parse] keeps the last value. *)
Definition lookup_prop (k : jsstring) (ps : list (jsstring * jsval)) : option jsval :=
  fold_left (fun acc kv => if jsstring_eqb k (fst kv) then Some (snd kv) else acc) ps None.

(** [v.k]: [None] is the TypeError thrown on [null] and [undefined].  The
    property names read by the source ([detail], [languages], [data],
    [translated_text]) are not properties of the Boolean, Number, String or
    Array prototypes, so they read [undefined] on those values. *)
Definition get_prop (v : jsval) (k : jsstring) : option jsval :=
  match v with
  | JUndefined | JNull => None
  | JObj ps => Some (match lookup_prop k ps with Some x => x | None => JUndefined end)
  | _ => Some JUndefined
  end.

(** [v?.k] *)
Definition opt_prop (v : jsval) (k : jsstring) : jsval :=
  match get_prop v k with Some x => x | None => JUndefined end.

(** A Number literal [m * 10^e] is falsy when it is zero or rounds to zero in
    binary64, i.e. when its magnitude is at most [2^-1075]. *)
Definition num_truthy (m e : Z) : bool :=
  negb (m =? 0) && ((0 <=? e) || (10 ^ (- e) <? Z.abs m * 2 ^ 1075)).

Definition truthy (v : jsval) : bool :=
  match v with
  | JUndefined | JNull => false
  | JBool b => b
  | JNum m e => num_truthy m e
  | JStr s => negb (match s with [] => true | _ => false end)
  | JArr _ | JObj _ => true
  end.

(** [Number::toString] is rendered as the digits of [m] followed by [e<exp>]
    when the exponent is not 0; it agrees with JavaScript on integer literals
    written without fraction or exponent.  No claim depends on it. *)
Definition num_to_string (m e : Z) : jsstring :=
  dec m ++ (if e =? 0 then [] else str "e" ++ dec e).

(** [ToString(v)]: [None] is the TypeError raised for an object whose own
    [toString] property (a JSON value, hence not callable) hides
    [Object.prototype.toString] and whose [valueOf] gives no primitive. *)
Fixpoint to_js_string (v : jsval) : option jsstring :=
  match v with
  | JUndefined => Some (str "undefined")
  | JNull => Some (str "null")
  | JBool true => Some (str "true")
  | JBool false => Some (str "false")
  | JNum m e => Some (num_to_string m e)
  | JStr s => Some s
  | JArr xs =>
      (* Array.prototype.join with a comma: null and undefined become the empty string *)
      let fix join (ys : list jsval) (first : bool) : option jsstring :=
        match ys with
        | [] => Some []
        | y :: ys' =>
            let sep := if first then [] else [44] in
            match (match y with
                   | JUndefined | JNull => Some []
                   | _ => to_js_string y
                   end), join ys' false with
            | Some a, Some b => Some (sep ++ a ++ b)
            | _, _ => None
            end
        end in
      join xs true
  | JObj ps =>
      match lookup_prop (str "toString") ps with
      | Some _ => None
      | None => Some (str "[object Object]")
      end
  end.

(** ** [JSON.parse] (ECMA-404 grammar) *)

Definition is_ws (c : Z) : bool := (c =? 9) || (c =? 10) || (c =? 13) || (c =? 32).

Fixpoint skip_ws (s : jsstring) : jsstring :=
  match s with
  | c :: r => if is_ws c then skip_ws r else s
  | [] => []
  end.

Definition is_digit (c : Z) : bool := (48 <=? c) && (c <=? 57).

Fixpoint take_digits (s : jsstring) : jsstring * jsstring :=
  match s with
  | c :: r => if is_digit c then let '(d, r') := take_digits r in (c :: d, r') else ([], s)
  | [] => ([], [])
  end.

Definition digits_value (d : jsstring) : Z :=
  fold_left (fun acc c => acc * 10 + (c - 48)) d 0.

Definition hex_val (c : Z) : option Z :=
  if is_digit c then Some (c - 48)
  else if (65 <=? c) && (c <=? 70) then Some (c - 55)
  else if (97 <=? c) && (c <=? 102) then Some (c - 87)
  else None.

Definition simple_escape (c : Z) : option Z :=
  (* the escapes quote, backslash, slash, b, f, n, r and t *)
  if c =? 34 then Some 34
  else if c =? 92 then Some 92
  else if c =? 47 then Some 47
  else if c =? 98 then Some 8
  else if c =? 102 then Some 12
  else if c =? 110 then Some 10
  else if c =? 114 then Some 13
  else if c =? 116 then Some 9
  else None.

Definition cons_fst (c : Z) (r : option (jsstring * jsstring)) : option (jsstring * jsstring) :=
  match r with Some (a, b) => Some (c :: a, b) | None => None end.

(** The body of a string literal, after its opening quote: the decoded code
    units and the input after the closing quote. *)
Fixpoint parse_str (s : jsstring) : option (jsstring * jsstring) :=
  match s with
  | [] => None
  | c :: r =>
      if c =? 34 then Some ([], r)
      else if c =? 92 then
        match r with
        | [] => None
        | e :: r' =>
            match simple_escape e with
            | Some u => cons_fst u (parse_str r')
            | None =>
                if e =? 117 then
                  match r' with
                  | h1 :: h2 :: h3 :: h4 :: r'' =>
                      match hex_val h1, hex_val h2, hex_val h3, hex_val h4 with
                      | Some a, Some b, Some c', Some d =>
                          cons_fst (((a * 16 + b) * 16 + c') * 16 + d) (parse_str r'')
                      | _, _, _, _ => None
                      end
                  | _ => None
                  end
                else None
            end
        end
      else if c <? 32 then None
      else cons_fst c (parse_str r)
  end.

Definition strip_prefix (p s : jsstring) : option jsstring :=
  if starts_with p s then Some (skipn (List.length p) s) else None.

(** [-? (0 | [1-9][0-9]* ) (. [0-9]+)? ([eE] [+-]? [0-9]+)?] *)
Definition parse_number (s : jsstring) : option (jsval * jsstring) :=
  let '(neg, s1) := match s with
                    | c :: r => if c =? 45 then (true, r) else (false, s)
                    | [] => (false, s)
                    end in
  let '(ip, s2) := take_digits s1 in
  match ip with
  | [] => None
  | d0 :: drest =>
      if (d0 =? 48) && negb (match drest with [] => true | _ => false end) then None
      else
        let ofrac :=
          match s2 with
          | c :: r => if c =? 46 then
                        match take_digits r with
                        | ([], _) => None
                        | (f, r') => Some (f, r')
                        end
                      else Some ([], s2)
          | [] => Some ([], s2)
          end in
        match ofrac with
        | None => None
        | Some (fr, s3) =>
            let oexp :=
              match s3 with
              | c :: r =>
                  if (c =? 101) || (c =? 69) then
                    let '(sg, r1) := match r with
                                     | c1 :: r1 => if c1 =? 45 then (-1, r1)
                                                   else if c1 =? 43 then (1, r1) else (1, r)
                                     | [] => (1, r)
                                     end in
                    match take_digits r1 with
                    | ([], _) => None
                    | (ed, r2) => Some (sg * digits_value ed, r2)
                    end
                  else Some (0, s3)
              | [] => Some (0, s3)
              end in
            match oexp with
            | None => None
            | Some (ex, s4) =>
                let m := digits_value (ip ++ fr) in
                Some (JNum (if neg then - m else m) (ex - Z.of_nat (List.length fr)), s4)
            end
        end
  end.

(** Recursive descent; [n] bounds the depth of the call tree. *)
Fixpoint parse_value (n : nat) (s : jsstring) {struct n} : option (jsval * jsstring) :=
  match n with
  | O => None
  | S n' =>
      match skip_ws s with
      | [] => None
      | c :: r =>
          if c =? 123 then
            match skip_ws r with
            | c1 :: r1 => if c1 =? 125 then Some (JObj [], r1) else parse_members n' (c1 :: r1) []
            | [] => None
            end
          else if c =? 91 then
            match skip_ws r with
            | c1 :: r1 => if c1 =? 93 then Some (JArr [], r1) else parse_elems n' (c1 :: r1) []
            | [] => None
            end
          else if c =? 34 then
            match parse_str r with Some (u, r') => Some (JStr u, r') | None => None end
          else if c =? 116 then
            match strip_prefix (str "rue") r with Some r' => Some (JBool true, r') | None => None end
          else if c =? 102 then
            match strip_prefix (str "alse") r with Some r' => Some (JBool false, r') | None => None end
          else if c =? 110 then
            match strip_prefix (str "ull") r with Some r' => Some (JNull, r') | None => None end
          else parse_number (c :: r)
      end
  end
with parse_members (n : nat) (s : jsstring) (acc : list (jsstring * jsval)) {struct n}
    : option (jsval * jsstring) :=
  match n with
  | O => None
  | S n' =>
      match skip_ws s with
      | c :: r =>
          if c =? 34 then
            match parse_str r with
            | Some (k, r1) =>
                match skip_ws r1 with
                | c1 :: r2 =>
                    if c1 =? 58 then
                      match parse_value n' r2 with
                      | Some (v, r3) =>
                          match skip_ws r3 with
                          | c3 :: r4 =>
                              if c3 =? 44 then parse_members n' r4 (acc ++ [(k, v)])
                              else if c3 =? 125 then Some (JObj (acc ++ [(k, v)]), r4)
                              else None
                          | [] => None
                          end
                      | None => None
                      end
                    else None
                | [] => None
                end
            | None => None
            end
          else None
      | [] => None
      end
  end
with parse_elems (n : nat) (s : jsstring) (acc : list jsval) {struct n}
    : option (jsval * jsstring) :=
  match n with
  | O => None
  | S n' =>
      match parse_value n' s with
      | Some (v, r3) =>
          match skip_ws r3 with
          | c3 :: r4 =>
              if c3 =? 44 then parse_elems n' r4 (acc ++ [v])
              else if c3 =? 93 then Some (JArr (acc ++ [v]), r4)
              else None
          | [] => None
          end
      | None => None
      end
  end.

(** The text of the SyntaxError thrown by [JSON.parse], as [String(error)]
    renders it.  Its wording is engine-specific; a fixed text stands for it. *)
Definition syntax_error_text : jsstring := str "SyntaxError: Unexpected token in JSON".

(** [JSON.parse(text)]: [inl] is the thrown SyntaxError, [inr] the value.
    Every call of the descent consumes input before calling twice more, so
    [2 * length + 2] bounds the depth. *)
Definition JSON_parse (text : jsstring) : jsstring + jsval :=
  match parse_value (S (S (2 * List.length text))) text with
  | Some (v, rest) =>
      match skip_ws rest with
      | [] => inr v
      | _ => inl syntax_error_text
      end
  | None => inl syntax_error_text
  end.




(** ** [ApiService] *)

(** Settlement of a returned Promise: [Rejected m] is a rejection with
    [new Error(...)] whose [message] is [m]. *)
Inductive settled (A : Type) : Type :=
| Resolved (a : A)
| Rejected (message : jsstring).
Arguments Resolved {A} a.
Arguments Rejected {A} message.

(** [response.ok] / [xhr.status >= 200 && xhr.status < 300] *)
Definition status_ok (status : Z) : bool := (200 <=? status) && (status <? 300).

(** *** [translateImage] *)

(** The event that ends the XMLHttpRequest: [load] with the status, status
    text and response text; [error]; [timeout] (after [xhr.timeout = 60000]). *)
Inductive xhr_end : Type :=
| XhrLoad (status : Z) (statusText responseText : jsstring)
| XhrError
| XhrTimeout.

Definition xhr_timeout_ms : Z := 60000.

(** The [load] listener. *)
Definition on_load (status : Z) (statusText responseText : jsstring) : settled jsval :=
  if status_ok status then
    match JSON_parse responseText with
    | inr response => Resolved response
    | inl error => Rejected (str "Invalid response format: " ++ error)
    end
  else
    let fallback := str "HTTP " ++ dec status ++ str ": " ++ statusText in
    match JSON_parse responseText with
    | inr errorResponse =>
        (* new Error(errorResponse.detail || 'Upload failed'), inside the try *)
        match get_prop errorResponse (str "detail") with
        | Some d =>
            let arg := if truthy d then d else JStr (str "Upload failed") in
            match to_js_string arg with
            | Some m => Rejected m
            | None => Rejected fallback
            end
        | None => Rejected fallback
        end
    | inl _ => Rejected fallback
    end.

(** How the Promise of [translateImage] settles. *)
Definition translate_settle (e : xhr_end) : settled jsval :=
  match e with
  | XhrLoad status statusText responseText => on_load status statusText responseText
  | XhrError => Rejected (str "Network error occurred")
  | XhrTimeout => Rejected (str "Request timeout")
  end.

(** *** Upload progress in binary64 arithmetic

    [Math.round((event.loaded / event.total) * 100)].  Doubles are modelled by
    the rationals they denote; [fl] rounds a non-negative rational to the
    nearest binary64 value (ties to even).  Byte counts and the quotients
    here stay in the normal range and far below the largest double, so
    neither subnormals nor overflow arise. *)

Open Scope Q_scope.

(** Round to nearest integer, ties to even. *)
Definition rne (z : Q) : Z :=
  let f := Qfloor z in
  match Qcompare (z - inject_Z f) (1 # 2) with
  | Lt => f
  | Gt => (f + 1)%Z
  | Eq => if Z.even f then f else (f + 1)%Z
  end.

(** [2^e] *)
Definition P (e : Z) : Q := (2 # 1) ^ e.

(** The binary exponent [e] with [2^e <= x < 2^(e+1)], for [0 < x]. *)
Definition ilog2 (x : Q) : Z :=
  let k := (Z.log2 (Qnum x) - Z.log2 (Zpos (Qden x)))%Z in
  if Qlt_le_dec x (P k) then (k - 1)%Z else k.

(** Rounding to 53 significant bits, for [0 <= x]. *)
Definition fl (x : Q) : Q :=
  if Qle_bool x 0 then 0
  else
    let e := (ilog2 x - 52)%Z in
    inject_Z (rne (x / P e)) * P e.

(** [Math.round] of a finite double: the closest integer, ties toward
    [+Infinity]. *)
Definition math_round (x : Q) : Z := Qfloor (x + (1 # 2)).

(** A Number handed to the progress callback: finite, or [NaN] ([0/0]) or
    [Infinity] ([n/0] with [n > 0]). *)
Inductive jsnum : Type :=
| NFin (z : Z)
| NNaN
| NInf.

(** [Number(n)] for a byte count, and the double operations [a / b] (with
    [b] finite and non-zero) and [a * b], on non-negative operands. *)
Definition to_number (n : Z) : Q := fl (inject_Z n).
Definition js_div (a b : Q) : Q := fl (a / b).
Definition js_mul (a b : Q) : Q := fl (a * b).

(** The callback argument for [loaded] and [total] bytes (the IDL
    [unsigned long long] attributes converted to Number). *)
Definition progress_pct (loaded total : Z) : Z :=
  math_round (js_mul (js_div (to_number loaded) (to_number total)) (inject_Z 100)).

Definition progress_value (loaded total : Z) : jsnum :=
  if Qeq_bool (to_number total) 0 then (if Qeq_bool (to_number loaded) 0 then NNaN else NInf)
  else NFin (progress_pct loaded total).

Close Scope Q_scope.

Record progress_event : Type := mkProgressEvent {
  lengthComputable : bool;
  loaded : Z;
  total : Z }.

(** The upload [progress] listener: the callback values, in event order. *)
Fixpoint progress_callbacks (evs : list progress_event) : list jsnum :=
  match evs with
  | [] => []
  | ev :: evs' =>
      if lengthComputable ev
      then progress_value (loaded ev) (total ev) :: progress_callbacks evs'
      else progress_callbacks evs'
  end.



(** *** [getLanguages] *)

(** How [fetch] ends: rejected (network failure) or with a response. *)
Inductive fetch_end : Type :=
| FetchFailed (reason : jsstring)
| FetchResponse (status : Z) (body : jsstring).

(** The settlement of [getLanguages()] and the lines it writes with
    [console.error]. *)
Definition getLanguages (f : fetch_end) : list jsstring * settled jsval :=
  let log := [str "Error fetching languages:"] in
  match f with
  | FetchFailed reason => (log, Rejected reason)
  | FetchResponse status body =>
      if negb (status_ok status) then (log, Rejected (str "Failed to fetch languages"))
      else
        (* const data = await response.json(); return data.languages *)
        match JSON_parse body with
        | inl err => (log, Rejected err)
        | inr data =>
            match get_prop data (str "languages") with
            | Some langs => ([], Resolved langs)
            | None => (log, Rejected (str "TypeError: Cannot read properties of null"))
            end
        end
  end.

(** ** [ImageUploader] *)

Record jsfile : Type := mkFile {
  file_type : jsstring;
  file_name : jsstring }.

(** Callbacks scheduled with [setTimeout]. *)
Inductive timer_action : Type :=
| ResetCopied.

(** The component state ([useState] hooks) together with the effects the
    handlers have on the outside: the system clipboard, pending timers, the
    console and the translation requests sent (file and language code). *)
Record ui : Type := mkUi {
  dragActive : bool;
  uploading : bool;
  uploadProgress : jsnum;
  selectedLanguage : jsstring;
  languages : jsval;
  result : jsval;
  error : option jsstring;
  copied : bool;
  clipboard : jsstring;
  timers : list (Z * timer_action);
  console : list jsstring;
  requests : list (jsfile * jsstring) }.

Definition set_dragActive (st : ui) (v : bool) : ui :=
  {| dragActive := v; uploading := uploading st; uploadProgress := uploadProgress st; selectedLanguage := selectedLanguage st; languages := languages st; result := result st; error := error st; copied := copied st; clipboard := clipboard st; timers := timers st; console := console st; requests := requests st |}.

Definition set_uploading (st : ui) (v : bool) : ui :=
  {| dragActive := dragActive st; uploading := v; uploadProgress := uploadProgress st; selectedLanguage := selectedLanguage st; languages := languages st; result := result st; error := error st; copied := copied st; clipboard := clipboard st; timers := timers st; console := console st; requests := requests st |}.

Definition set_uploadProgress (st : ui) (v : jsnum) : ui :=
  {| dragActive := dragActive st; uploading := uploading st; uploadProgress := v; selectedLanguage := selectedLanguage st; languages := languages st; result := result st; error := error st; copied := copied st; clipboard := clipboard st; timers := timers st; console := console st; requests := requests st |}.

Definition set_selectedLanguage (st : ui) (v : jsstring) : ui :=
  {| dragActive := dragActive st; uploading := uploading st; uploadProgress := uploadProgress st; selectedLanguage := v; languages := languages st; result := result st; error := error st; copied := copied st; clipboard := clipboard st; timers := timers st; console := console st; requests := requests st |}.

Definition set_languages (st : ui) (v : jsval) : ui :=
  {| dragActive := dragActive st; uploading := uploading st; uploadProgress := uploadProgress st; selectedLanguage := selectedLanguage st; languages := v; result := result st; error := error st; copied := copied st; clipboard := clipboard st; timers := timers st; console := console st; requests := requests st |}.

Definition set_result (st : ui) (v : jsval) : ui :=
  {| dragActive := dragActive st; uploading := uploading st; uploadProgress := uploadProgress st; selectedLanguage := selectedLanguage st; languages := languages st; result := v; error := error st; copied := copied st; clipboard := clipboard st; timers := timers st; console := console st; requests := requests st |}.

Definition set_error (st : ui) (v : option jsstring) : ui :=
  {| dragActive := dragActive st; uploading := uploading st; uploadProgress := uploadProgress st; selectedLanguage := selectedLanguage st; languages := languages st; result := result st; error := v; copied := copied st; clipboard := clipboard st; timers := timers st; console := console st; requests := requests st |}.

Definition set_copied (st : ui) (v : bool) : ui :=
  {| dragActive := dragActive st; uploading := uploading st; uploadProgress := uploadProgress st; selectedLanguage := selectedLanguage st; languages := languages st; result := result st; error := error st; copied := v; clipboard := clipboard st; timers := timers st; console := console st; requests := requests st |}.

Definition set_clipboard (st : ui) (v : jsstring) : ui :=
  {| dragActive := dragActive st; uploading := uploading st; uploadProgress := uploadProgress st; selectedLanguage := selectedLanguage st; languages := languages st; result := result st; error := error st; copied := copied st; clipboard := v; timers := timers st; console := console st; requests := requests st |}.

Definition set_timers (st : ui) (v : list (Z * timer_action)) : ui :=
  {| dragActive := dragActive st; uploading := uploading st; uploadProgress := uploadProgress st; selectedLanguage := selectedLanguage st; languages := languages st; result := result st; error := error st; copied := copied st; clipboard := clipboard st; timers := v; console := console st; requests := requests st |}.

Definition set_console (st : ui) (v : list jsstring) : ui :=
  {| dragActive := dragActive st; uploading := uploading st; uploadProgress := uploadProgress st; selectedLanguage := selectedLanguage st; languages := languages st; result := result st; error := error st; copied := copied st; clipboard := clipboard st; timers := timers st; console := v; requests := requests st |}.

Definition set_requests (st : ui) (v : list (jsfile * jsstring)) : ui :=
  {| dragActive := dragActive st; uploading := uploading st; uploadProgress := uploadProgress st; selectedLanguage := selectedLanguage st; languages := languages st; result := result st; error := error st; copied := copied st; clipboard := clipboard st; timers := timers st; console := console st; requests := v |}.

Definition initial_ui : ui :=
  {| dragActive := false; uploading := false; uploadProgress := NFin 0;
     selectedLanguage := str "en"; languages := JObj []; result := JNull;
     error := None; copied := false; clipboard := []; timers := [];
     console := []; requests := [] |}.

(** What the page shows: [{error && ...}] and [{result && ...}]. *)
Definition shows_error (st : ui) : bool :=
  match error st with Some m => truthy (JStr m) | None => false end.

Definition shows_result (st : ui) : bool := truthy (result st).

(** *** Language catalog ([loadLanguages], run on mount) *)

Definition fallback_languages : jsval :=
  JObj [(str "en", JStr (str "English")); (str "es", JStr (str "Spanish"));
        (str "fr", JStr (str "French")); (str "de", JStr (str "German"));
        (str "zh", JStr (str "Chinese")); (str "ja", JStr (str "Japanese"))].

Definition loadLanguages (st : ui) (f : fetch_end) : ui :=
  let '(log, r) := getLanguages f in
  match r with
  | Resolved langs => set_languages (set_console st (console st ++ log)) langs
  | Rejected _ =>
      set_languages
        (set_console st (console st ++ log ++ [str "Failed to load languages:"]))
        fallback_languages
  end.

(** *** [handleFileUpload] *)

Definition is_image_type (t : jsstring) : bool := starts_with (str "image/") t.

(** The synchronous part, up to [await ApiService.translateImage(...)], which
    sends the request before it returns. *)
Definition handleFileUpload_start (st : ui) (file : jsfile) : ui :=
  if negb (is_image_type (file_type file)) then
    set_error st (Some (str "Please select an image file"))
  else
    let st1 := set_result (set_error (set_uploadProgress (set_uploading st true) (NFin 0)) None) JNull in
    set_requests st1 (requests st1 ++ [(file, selectedLanguage st1)]).

(** The progress callback [(progress) => setUploadProgress(progress)]. *)
Definition on_progress (st : ui) (v : jsnum) : ui := set_uploadProgress st v.

(** The continuation after the await: [setResult] or [setError], then the
    [finally] block. *)
Definition handleFileUpload_finish (st : ui) (r : settled jsval) : ui :=
  let st1 := match r with
             | Resolved response => set_result st response
             | Rejected message => set_error st (Some message)
             end in
  set_uploadProgress (set_uploading st1 false) (NFin 0).

(** A whole [handleFileUpload] call with no other event in between: its
    upload progress events and the event that ends the request. *)
Definition handleFileUpload (st : ui) (file : jsfile)
    (evs : list progress_event) (fin : xhr_end) : ui :=
  let st1 := handleFileUpload_start st file in
  if is_image_type (file_type file) then
    handleFileUpload_finish (fold_left on_progress (progress_callbacks evs) st1)
      (translate_settle fin)
  else st1.

(** *** Input channels (synchronous parts) *)

(** [handleFileInputChange]: the first selected file. *)
Definition handleFileInputChange (st : ui) (files : list jsfile) : ui :=
  match files with
  | file :: _ => handleFileUpload_start st file
  | [] => st
  end.

(** [handleDrop]: the first dropped file. *)
Definition handleDrop (st : ui) (files : list jsfile) : ui :=
  let st1 := set_dragActive st false in
  match files with
  | file :: _ =>
      if is_image_type (file_type file) then handleFileUpload_start st1 file
      else set_error st1 (Some (str "Please upload an image file"))
  | [] => st1
  end.

(** A [DataTransferItem] of the clipboard: its [type] and what [getAsFile()]
    returns. *)
Record clip_item : Type := mkClipItem {
  item_type : jsstring;
  as_file : option jsfile }.

Fixpoint find_image_item (items : list clip_item) : option clip_item :=
  match items with
  | [] => None
  | it :: items' =>
      if contains (str "image") (item_type it) then Some it else find_image_item items'
  end.

(** [handlePaste]: whether [preventDefault()] is called, and the state. *)
Definition handlePaste (st : ui) (items : option (list clip_item)) : bool * ui :=
  match items with
  | None => (false, st)
  | Some its =>
      match find_image_item its with
      | None => (false, st)
      | Some it =>
          (true, match as_file it with
                 | Some file => handleFileUpload_start st file
                 | None => st
                 end)
      end
  end.

(** *** [handleCopyText] *)

(** [clipboard_ok]: whether [navigator.clipboard.writeText] resolves. *)
Definition handleCopyText (st : ui) (clipboard_ok : bool) : ui :=
  let t := opt_prop (opt_prop (result st) (str "data")) (str "translated_text") in
  if truthy t then
    match to_js_string t with
    | Some text =>
        if clipboard_ok then
          set_timers (set_copied (set_clipboard st text) true)
            (timers st ++ [(2000, ResetCopied)])
        else set_console st (console st ++ [str "Failed to copy text:"])
    | None => set_console st (console st ++ [str "Failed to copy text:"])
    end
  else st.

Definition run_timer (st : ui) (a : timer_action) : ui :=
  match a with
  | ResetCopied => set_copied st false
  end.

(** *** [handleDrag] *)

(** [handleDrag] for an event whose [type] is [etype] ([preventDefault] and
    [stopPropagation] have no effect on the state). *)
Definition handleDrag (st : ui) (etype : jsstring) : ui :=
  if jsstring_eqb etype (str "dragenter") || jsstring_eqb etype (str "dragover")
  then set_dragActive st true
  else if jsstring_eqb etype (str "dragleave") then set_dragActive st false
  else st.

(** *** [TranslationResponse] *)

(** The JSON value of a [TranslationResponse] whose fields are all strings,
    [message] being optional. *)
Definition mk_response (original translated source : jsstring) (message : option jsstring)
    (target target_name : jsstring) : jsval :=
  JObj [(str "success", JBool true);
        (str "data", JObj ([(str "original_text", JStr original);
                            (str "translated_text", JStr translated);
                            (str "source_language", JStr source)]
                           ++ match message with
                              | Some m => [(str "message", JStr m)]
                              | None => []
                              end));
        (str "target_language", JStr target);
        (str "target_language_name", JStr target_name)].

(** *** Rendering *)

(** What the page shows, in document order. *)
Inductive view_item : Type :=
| VStatus (text : jsstring)               (* 'Processing image...' or 'Drop your image here' *)
| VChooseButton                           (* the 'Choose Image' button *)
| VProgress (text : jsstring)             (* the progress bar and its caption *)
| VLanguageOption (code name : jsstring)  (* a SelectItem *)
| VError (text : jsstring)                (* the error card *)
| VResultTitle                            (* the 'Translation Result' card *)
| VCopyButton (disabled : bool) (label : jsstring)
| VOriginal (heading body : jsstring)
| VTranslated (heading body : jsstring)
| VMessage (text : jsstring)
| VText (text : jsstring).                (* a bare text node *)

(** React's rendering of a child [{v}]: strings and numbers as text,
    booleans, [null] and [undefined] as nothing, arrays element by element;
    an object throws ("Objects are not valid as a React child"). *)
Fixpoint render_child (v : jsval) : option jsstring :=
  match v with
  | JStr s => Some s
  | JNum m e => Some (num_to_string m e)
  | JBool _ | JNull | JUndefined => Some []
  | JArr xs =>
      let fix go (ys : list jsval) : option jsstring :=
        match ys with
        | [] => Some []
        | y :: ys' =>
            match render_child y, go ys' with
            | Some a, Some b => Some (a ++ b)
            | _, _ => None
            end
        end in
      go xs
  | JObj _ => None
  end.

(** [{v && <...>}] when [v] is falsy: a falsy Number is rendered, as ["0"];
    the other falsy values render nothing. *)
Definition falsy_child (v : jsval) : list view_item :=
  match v with
  | JNum _ _ => [VText (str "0")]
  | _ => []
  end.

Definition cond_render (v : jsval) (items : option (list view_item)) : option (list view_item) :=
  if truthy v then items else Some (falsy_child v).

Definition jsnum_text (n : jsnum) : jsstring :=
  match n with
  | NFin z => dec z
  | NNaN => str "NaN"
  | NInf => str "Infinity"
  end.

(** The upload card. *)
Definition render_upload_area (st : ui) : list view_item :=
  [VStatus (if uploading st then str "Processing image..." else str "Drop your image here")]
  ++ (if uploading st then [] else [VChooseButton])
  ++ (if uploading st then [VProgress (jsnum_text (uploadProgress st) ++ str "% uploaded")] else []).

(** A canonical array index: the property keys [Object.entries] lists first,
    in ascending numeric order. *)
Definition is_array_index (k : jsstring) : bool :=
  match k with
  | [] => false
  | d :: r =>
      forallb is_digit k
      && ((d =? 48) && (match r with [] => true | _ => false end) || negb (d =? 48))
      && (digits_value k <? 4294967295)
  end.

Fixpoint insert_index (k : jsstring) (ks : list jsstring) : list jsstring :=
  match ks with
  | [] => [k]
  | k' :: ks' => if digits_value k <=? digits_value k' then k :: ks else k' :: insert_index k ks'
  end.

(** The own keys of a parsed object in property order: each key once, at its
    first position; integer indices first, ascending. *)
Fixpoint unique_keys (ps : list (jsstring * jsval)) (seen : list jsstring) : list jsstring :=
  match ps with
  | [] => []
  | (k, _) :: ps' =>
      if existsb (jsstring_eqb k) seen then unique_keys ps' seen
      else k :: unique_keys ps' (k :: seen)
  end.

Definition own_keys (ps : list (jsstring * jsval)) : list jsstring :=
  let ks := unique_keys ps [] in
  fold_right insert_index [] (filter is_array_index ks)
  ++ filter (fun k => negb (is_array_index k)) ks.

(** [Object.entries(v)]: [None] is the TypeError on [null] and [undefined]. *)
Definition object_entries (v : jsval) : option (list (jsstring * jsval)) :=
  match v with
  | JUndefined | JNull => None
  | JObj ps =>
      Some (map (fun k => (k, match lookup_prop k ps with Some x => x | None => JUndefined end))
                (own_keys ps))
  | JArr xs => Some (combine (map (fun i => dec (Z.of_nat i)) (seq 0 (List.length xs))) xs)
  | JStr s => Some (combine (map (fun i => dec (Z.of_nat i)) (seq 0 (List.length s)))
                            (map (fun c => JStr [c]) s))
  | JBool _ | JNum _ _ => Some []
  end.

(** The items of the language select: [.map(([code, name]) => <SelectItem>)]. *)
Fixpoint render_options (l : list (jsstring * jsval)) : option (list view_item) :=
  match l with
  | [] => Some []
  | (code, name) :: l' =>
      match render_child name, render_options l' with
      | Some n, Some rest => Some (VLanguageOption code n :: rest)
      | _, _ => None
      end
  end.

(** The language select. *)
Definition render_languages (st : ui) : option (list view_item) :=
  match object_entries (languages st) with
  | None => None
  | Some es => render_options es
  end.

(** The error card [{error && ...}]. *)
Definition render_error (st : ui) : option (list view_item) :=
  match error st with
  | Some m => cond_render (JStr m) (Some [VError m])
  | None => Some []
  end.

Definition app_opt (a b : option (list view_item)) : option (list view_item) :=
  match a, b with
  | Some x, Some y => Some (x ++ y)
  | _, _ => None
  end.

(** The result card [{result && ...}]. *)
Definition render_result (st : ui) : option (list view_item) :=
  let r := result st in
  let data := opt_prop r (str "data") in
  let tt := opt_prop data (str "translated_text") in
  let ot := opt_prop data (str "original_text") in
  let msg := opt_prop data (str "message") in
  cond_render r
    (app_opt
      (Some [VResultTitle;
             VCopyButton (negb (truthy tt)) (if copied st then str "Copied!" else str "Copy")])
      (app_opt
        (cond_render ot
          (let src := opt_prop data (str "source_language") in
           match render_child (if truthy src then src else JStr (str "Unknown")),
                 render_child ot with
           | Some s, Some body => Some [VOriginal (str "Original Text (" ++ s ++ str "):") body]
           | _, _ => None
           end))
        (app_opt
          (cond_render tt
            (match render_child (opt_prop r (str "target_language_name")), render_child tt with
             | Some n, Some body => Some [VTranslated (str "Translated Text (" ++ n ++ str "):") body]
             | _, _ => None
             end))
          (cond_render msg
            (match render_child msg with
             | Some m => Some [VMessage m]
             | None => None
             end))))).

(** The whole page; [None] when rendering throws. *)
Definition render (st : ui) : option (list view_item) :=
  app_opt (Some (render_upload_area st))
    (app_opt (render_languages st) (app_opt (render_error st) (render_result st))).

(** * Evaluations of the model on sample inputs *)

Example JSON_parse_detail :
  JSON_parse (json_text "{'detail':'OCR engine unavailable'}")
  = inr (JObj [(str "detail", JStr (str "OCR engine unavailable"))]).
Proof. reflexivity. Qed.

Example JSON_parse_nested :
  JSON_parse (json_text " [1, -2.5e1, {'a': [true, null]}, 'xA'] ")
  = inr (JArr [JNum 1 0; JNum (-25) 0; JObj [(str "a", JArr [JBool true; JNull])];
               JStr (str "xA")]).
Proof. reflexivity. Qed.

Example JSON_parse_rejects :
  JSON_parse (str "Internal Server Error") = inl syntax_error_text
  /\ JSON_parse (str "01") = inl syntax_error_text
  /\ JSON_parse (json_text "{'a':1,}") = inl syntax_error_text
  /\ JSON_parse [] = inl syntax_error_text.
Proof. repeat split; reflexivity. Qed.

Example progress_value_samples :
  progress_value 1 8 = NFin 13 /\ progress_value 0 10 = NFin 0
  /\ progress_value 10 10 = NFin 100 /\ progress_value 1 3 = NFin 33
  /\ progress_value 0 0 = NNaN /\ progress_value 5 0 = NInf.
Proof. repeat split; vm_compute; reflexivity. Qed.

(** The double product rounds [29/200*100 = 14.5] down to 14.499999999999998,
    as in JavaScript, where exact rounding gives 15. *)
Example progress_value_29_200 : progress_value 29 200 = NFin 14.
Proof. vm_compute. reflexivity. Qed.

(** * Claims *)

(** ** File picker and drop validation *)

(** C1: a file whose type does not start with [image/], selected with the
    picker or dropped, sends no request and sets the picker's or the drop's
    error message; the whole [handleFileUpload] stops before the client is
    called, whatever the network would have done. *)
Theorem non_image_file_rejected (st : ui) (file : jsfile) (rest : list jsfile)
    (Hty : is_image_type (file_type file) = false) :
  let st_pick := handleFileInputChange st (file :: rest) in
  let st_drop := handleDrop st (file :: rest) in
  requests st_pick = requests st
  /\ error st_pick = Some (str "Please select an image file")
  /\ shows_error st_pick = true
  /\ requests st_drop = requests st
  /\ error st_drop = Some (str "Please upload an image file")
  /\ shows_error st_drop = true
  /\ (forall evs fin, handleFileUpload st file evs fin = st_pick).
Proof.
  unfold handleFileInputChange, handleDrop, handleFileUpload, handleFileUpload_start.
  rewrite Hty; simpl. repeat split; reflexivity.
Qed.

Lemma non_image_file_rejected_witness :
  is_image_type (file_type (mkFile (str "text/plain") (str "notes.txt"))) = false
  /\ error (handleDrop initial_ui [mkFile (str "text/plain") (str "notes.txt")])
     = Some (str "Please upload an image file").
Proof.
  split; [reflexivity|].
  apply (non_image_file_rejected initial_ui (mkFile (str "text/plain") (str "notes.txt")) []).
  reflexivity.
Defined.

(** ** Load handler of [translateImage] *)

Definition http_fallback (status : Z) (statusText : jsstring) : jsstring :=
  str "HTTP " ++ dec status ++ str ": " ++ statusText.

(** C2 (counterexample): a JSON error body without [detail] gives
    ["Upload failed"], not a detail string; a body [null] parses yet gives
    the ["HTTP <status>: <statusText>"] text. *)
Lemma non_ok_reason_not_always_detail :
  on_load 500 (str "Internal Server Error") (json_text "{}") = Rejected (str "Upload failed")
  /\ on_load 500 (str "Internal Server Error") (str "null")
     = Rejected (str "HTTP 500: Internal Server Error").
Proof. split; reflexivity. Qed.

(** C2 (amended): for a status outside [200,300), a body that parses to a
    non-null value with a non-empty string [detail] gives exactly that string;
    a parsed body whose [detail] is missing or falsy gives ["Upload failed"];
    a body that is not JSON, or is JSON [null], gives
    ["HTTP <status>: <statusText>"].  An HTTP 500 with body
    [{"detail":"OCR engine unavailable"}] ends with exactly that text as the
    displayed error. *)
Theorem non_ok_failure_reason (status : Z) (statusText body : jsstring)
    (Hst : status_ok status = false) :
  (forall v d, JSON_parse body = inr v -> get_prop v (str "detail") = Some (JStr d) ->
     d <> [] -> on_load status statusText body = Rejected d)
  /\ (forall v d, JSON_parse body = inr v -> get_prop v (str "detail") = Some d ->
     truthy d = false -> on_load status statusText body = Rejected (str "Upload failed"))
  /\ (forall err, JSON_parse body = inl err ->
     on_load status statusText body = Rejected (http_fallback status statusText))
  /\ (JSON_parse body = inr JNull ->
     on_load status statusText body = Rejected (http_fallback status statusText))
  /\ (forall st evs f,
     is_image_type (file_type f) = true ->
     error (handleFileUpload st f evs
              (XhrLoad 500 statusText (json_text "{'detail':'OCR engine unavailable'}")))
     = Some (str "OCR engine unavailable")).
Proof.
  unfold on_load. rewrite Hst.
  split; [|split; [|split; [|split]]].
  - intros v d Hp Hd Hne. rewrite Hp, Hd. simpl.
    destruct d as [|c d']; [congruence|reflexivity].
  - intros v d Hp Hd Hf. rewrite Hp, Hd, Hf. reflexivity.
  - intros err Hp. rewrite Hp. reflexivity.
  - intros Hp. rewrite Hp. reflexivity.
  - intros st evs f Hf. unfold handleFileUpload. rewrite Hf. reflexivity.
Qed.

Lemma non_ok_failure_reason_witness :
  status_ok 500 = false
  /\ on_load 500 (str "Internal Server Error") (json_text "{'detail':'OCR engine unavailable'}")
     = Rejected (str "OCR engine unavailable").
Proof.
  split; [reflexivity|].
  refine (proj1 (non_ok_failure_reason 500 (str "Internal Server Error")
                   (json_text "{'detail':'OCR engine unavailable'}") eq_refl)
            (JObj [(str "detail", JStr (str "OCR engine unavailable"))])
            (str "OCR engine unavailable") _ _ _);
    [reflexivity | reflexivity | discriminate].
Defined.

(** C3: for a status in [200,300), a body that is not JSON rejects with
    ["Invalid response format: "] followed by the parse error, and a JSON
    body resolves with the parsed value. *)
Theorem ok_response_parse (status : Z) (statusText body : jsstring)
    (Hst : status_ok status = true) :
  (forall err, JSON_parse body = inl err ->
     on_load status statusText body = Rejected (str "Invalid response format: " ++ err))
  /\ (forall v, JSON_parse body = inr v -> on_load status statusText body = Resolved v).
Proof.
  unfold on_load. rewrite Hst. split; intros x Hp; rewrite Hp; reflexivity.
Qed.

Lemma ok_response_parse_witness :
  status_ok 200 = true
  /\ on_load 200 (str "OK") (str "{") = Rejected (str "Invalid response format: " ++ syntax_error_text).
Proof.
  split; [reflexivity|].
  apply (proj1 (ok_response_parse 200 (str "OK") (str "{") eq_refl)). reflexivity.
Defined.

(** C10: a status in [200,300) with a body that is JSON of any shape resolves
    with the parsed value unchanged; the only rejection on such a status is a
    failed parse. *)
Theorem ok_response_no_shape_check (status : Z) (statusText body : jsstring)
    (Hst : status_ok status = true) :
  (forall v, JSON_parse body = inr v -> on_load status statusText body = Resolved v)
  /\ (forall m, on_load status statusText body = Rejected m ->
      exists err, JSON_parse body = inl err /\ m = str "Invalid response format: " ++ err).
Proof.
  unfold on_load. rewrite Hst. split.
  - intros v Hp. rewrite Hp. reflexivity.
  - intros m. destruct (JSON_parse body) as [err|v].
    + intros H. inversion H. eauto.
    + discriminate.
Qed.

Lemma ok_response_no_shape_check_witness :
  status_ok 201 = true
  /\ on_load 201 (str "Created") (str "null") = Resolved JNull
  /\ on_load 201 (str "Created") (str "42") = Resolved (JNum 42 0)
  /\ on_load 201 (str "Created") (json_text "{'success':false}")
     = Resolved (JObj [(str "success", JBool false)]).
Proof.
  split; [reflexivity|].
  split; [|split];
    apply (proj1 (ok_response_no_shape_check 201 (str "Created") _ eq_refl)); reflexivity.
Defined.

(** ** Error and result display *)

Definition sample_response : jsval :=
  JObj [(str "success", JBool true);
        (str "data", JObj [(str "original_text", JStr (str "Hola"));
                           (str "translated_text", JStr (str "Hello"));
                           (str "source_language", JStr (str "es"))]);
        (str "target_language", JStr (str "en"));
        (str "target_language_name", JStr (str "English"))].

Definition text_file : jsfile := mkFile (str "text/plain") (str "notes.txt").

(** C5 (counterexample): after a translation result is shown, picking a text
    file shows the validation error while the previous result stays shown. *)
Lemma rejected_pick_keeps_result :
  let st := handleFileInputChange (set_result initial_ui sample_response) [text_file] in
  shows_error st = true /\ shows_result st = true /\ result st = sample_response.
Proof. repeat split; reflexivity. Qed.

Lemma last_cons_default {A} (x : A) (l : list A) (d d' : A) :
  last (x :: l) d = last (x :: l) d'.
Proof.
  revert x. induction l as [|y l IH]; intros x; [reflexivity|].
  change (last (y :: l) d = last (y :: l) d'). apply IH.
Qed.

Lemma fold_on_progress (cbs : list jsnum) (st : ui) :
  fold_left on_progress cbs st = set_uploadProgress st (last cbs (uploadProgress st)).
Proof.
  revert st. induction cbs as [|c cbs IH]; intros st; cbn [fold_left].
  - destruct st; reflexivity.
  - rewrite IH. unfold on_progress. destruct cbs as [|j cbs]; [destruct st; reflexivity|].
    rewrite (last_cons_default j cbs _ (uploadProgress st)). destruct st; reflexivity.
Qed.

(** C5 (amended): a submission that passes validation clears the error and
    the result, turns [uploading] on and sets the progress to 0 in the state
    in which its request is sent; this is the start on every channel.  A
    submission that runs alone then ends with its own outcome only: the
    response and no error, or its error and no result, never an error beside
    an earlier result.  Overlapping submissions are not kept apart: the error
    of the later one can be shown beside the result of the earlier one.  A
    file rejected on the picker or drop path replaces the error message and
    leaves the previous result as it was. *)
Theorem submission_start_clears (st : ui) (file : jsfile) (rest : list jsfile) :
  (is_image_type (file_type file) = true ->
     forall st', st' = handleFileUpload_start st file
              \/ st' = handleFileInputChange st (file :: rest)
              \/ st' = handleDrop st (file :: rest)
              \/ (exists its it, find_image_item its = Some it /\ as_file it = Some file
                                 /\ st' = snd (handlePaste st (Some its))) ->
     error st' = None /\ result st' = JNull /\ shows_error st' = false
     /\ shows_result st' = false /\ uploading st' = true /\ uploadProgress st' = NFin 0
     /\ requests st' = requests st ++ [(file, selectedLanguage st)])
  /\ (is_image_type (file_type file) = true ->
     forall evs fin, let st' := handleFileUpload st file evs fin in
     match translate_settle fin with
     | Resolved v => result st' = v /\ error st' = None
     | Rejected m => result st' = JNull /\ error st' = Some m
     end
     /\ (shows_error st' = false \/ shows_result st' = false))
  /\ (forall (f2 : jsfile) (v : jsval) (m : jsstring),
     is_image_type (file_type file) = true -> is_image_type (file_type f2) = true ->
     let st' := handleFileUpload_finish
                  (handleFileUpload_finish
                     (handleFileUpload_start (handleFileUpload_start st file) f2) (Rejected m))
                  (Resolved v) in
     error st' = Some m /\ result st' = v)
  /\ (is_image_type (file_type file) = false ->
     result (handleFileInputChange st (file :: rest)) = result st
     /\ error (handleFileInputChange st (file :: rest)) = Some (str "Please select an image file")
     /\ result (handleDrop st (file :: rest)) = result st
     /\ error (handleDrop st (file :: rest)) = Some (str "Please upload an image file")).
Proof.
  split; [|split; [|split]].
  - intros Hty st' Hst'.
    assert (Hs : forall s, error (handleFileUpload_start s file) = None
                           /\ result (handleFileUpload_start s file) = JNull
                           /\ uploading (handleFileUpload_start s file) = true
                           /\ uploadProgress (handleFileUpload_start s file) = NFin 0
                           /\ requests (handleFileUpload_start s file)
                              = requests s ++ [(file, selectedLanguage s)]).
    { intros s. unfold handleFileUpload_start. rewrite Hty. repeat split; reflexivity. }
    destruct Hst' as [-> | [-> | [-> | (its & it & Hf & Ha & ->)]]].
    + destruct (Hs st) as (E & R & U & Pr & Rq). unfold shows_error, shows_result. rewrite E, R. repeat split; assumption.
    + simpl. destruct (Hs st) as (E & R & U & Pr & Rq). unfold shows_error, shows_result.
      rewrite E, R. repeat split; assumption.
    + unfold handleDrop. rewrite Hty. destruct (Hs (set_dragActive st false)) as (E & R & U & Pr & Rq).
      unfold shows_error, shows_result. rewrite E, R. repeat split; assumption.
    + unfold handlePaste. rewrite Hf, Ha. simpl. destruct (Hs st) as (E & R & U & Pr & Rq).
      unfold shows_error, shows_result. rewrite E, R. repeat split; assumption.
  - intros Hty evs fin. cbv zeta.
    unfold handleFileUpload. rewrite Hty.
    assert (Hf : forall s r, handleFileUpload_finish s r
                 = set_uploadProgress (set_uploading (match r with
                                                      | Resolved response => set_result s response
                                                      | Rejected message => set_error s (Some message)
                                                      end) false) (NFin 0)) by reflexivity.
    set (s1 := fold_left on_progress (progress_callbacks evs) (handleFileUpload_start st file)).
    assert (Hs1 : error s1 = None /\ result s1 = JNull).
    { unfold s1. rewrite fold_on_progress. unfold handleFileUpload_start. rewrite Hty.
      split; reflexivity. }
    destruct Hs1 as [E R].
    destruct (translate_settle fin) as [v|m]; rewrite Hf; unfold shows_error, shows_result; simpl.
    + rewrite E. split; [split; reflexivity | left; reflexivity].
    + rewrite R. split; [split; reflexivity | right; reflexivity].
  - intros f2 v m H1 H2. cbv zeta. unfold handleFileUpload_start. rewrite H1, H2.
    split; reflexivity.
  - intros Hty. unfold handleFileInputChange, handleDrop, handleFileUpload_start.
    rewrite Hty. repeat split; reflexivity.
Qed.

Lemma submission_start_clears_witness :
  is_image_type (file_type (mkFile (str "image/png") (str "a.png"))) = true
  /\ error (handleFileInputChange (set_error (set_result initial_ui sample_response)
              (Some (str "Request timeout"))) [mkFile (str "image/png") (str "a.png")]) = None.
Proof.
  split; [reflexivity|].
  refine (proj1 (proj1 (submission_start_clears
                          (set_error (set_result initial_ui sample_response)
                             (Some (str "Request timeout")))
                          (mkFile (str "image/png") (str "a.png")) []) eq_refl _ _)).
  right; left; reflexivity.
Defined.

(** ** Paste *)

Lemma find_image_item_first (its : list clip_item) (it : clip_item) :
  find_image_item its = Some it ->
  exists pre post, its = pre ++ it :: post
    /\ contains (str "image") (item_type it) = true
    /\ Forall (fun x => contains (str "image") (item_type x) = false) pre.
Proof.
  induction its as [|x its IH]; simpl; [discriminate|].
  case_eq (contains (str "image") (item_type x)); intros Hx H.
  - inversion H; subst. exists [], its. auto.
  - destruct (IH H) as (pre & post & -> & Hit & Hpre).
    exists (x :: pre), post. auto.
Qed.

Lemma find_image_item_none (its : list clip_item) :
  find_image_item its = None ->
  Forall (fun x => contains (str "image") (item_type x) = false) its.
Proof.
  induction its as [|x its IH]; simpl; [auto|].
  case_eq (contains (str "image") (item_type x)); intros Hx H; [discriminate|auto].
Qed.

Definition odd_image_item : clip_item :=
  mkClipItem (str "application/x-image") (Some (mkFile (str "application/x-image") (str "clip"))).

(** C6 (counterexample): a clipboard item of type [application/x-image] is
    picked by the scan and its file reaches [handleFileUpload], whose
    [image/] check rejects it: no request is sent. *)
Lemma pasted_file_still_type_checked :
  let r := handlePaste initial_ui (Some [odd_image_item]) in
  fst r = true
  /\ requests (snd r) = []
  /\ error (snd r) = Some (str "Please select an image file").
Proof. repeat split; reflexivity. Qed.

(** C6 (amended): the paste handler takes the first clipboard item whose type
    contains [image]; it then calls [preventDefault] and passes the file of
    [getAsFile()] (nothing when that is null) to [handleFileUpload], which
    applies the picker's [image/] prefix check: the request is sent exactly
    when the file's type starts with [image/], otherwise the error
    ["Please select an image file"] is set.  With no such item, or no
    clipboard data, the event is left alone. *)
Theorem paste_scan_and_forward (st : ui) (items : option (list clip_item)) :
  match items with
  | Some its =>
      match find_image_item its with
      | Some it =>
          (exists pre post, its = pre ++ it :: post
             /\ contains (str "image") (item_type it) = true
             /\ Forall (fun x => contains (str "image") (item_type x) = false) pre)
          /\ fst (handlePaste st items) = true
          /\ match as_file it with
             | Some f =>
                 snd (handlePaste st items) = handleFileUpload_start st f
                 /\ (is_image_type (file_type f) = true ->
                     requests (snd (handlePaste st items)) = requests st ++ [(f, selectedLanguage st)])
                 /\ (is_image_type (file_type f) = false ->
                     requests (snd (handlePaste st items)) = requests st
                     /\ error (snd (handlePaste st items)) = Some (str "Please select an image file"))
             | None => snd (handlePaste st items) = st
             end
      | None =>
          Forall (fun x => contains (str "image") (item_type x) = false) its
          /\ handlePaste st items = (false, st)
      end
  | None => handlePaste st items = (false, st)
  end.
Proof.
  destruct items as [its|]; [|reflexivity].
  case_eq (find_image_item its).
  - intros it Hf. split; [apply find_image_item_first; exact Hf|].
    unfold handlePaste. rewrite Hf. split; [reflexivity|].
    destruct (as_file it) as [f|]; [|reflexivity].
    simpl. split; [reflexivity|].
    unfold handleFileUpload_start. split; intros Hty; rewrite Hty; [reflexivity|].
    split; reflexivity.
  - intros Hf. split; [apply find_image_item_none; exact Hf|].
    unfold handlePaste. rewrite Hf. reflexivity.
Qed.

(** ** Language catalog *)

Lemma parse_members_obj (n : nat) (s : jsstring) (acc : list (jsstring * jsval)) v r :
  parse_members n s acc = Some (v, r) -> exists ps, v = JObj ps.
Proof.
  revert s acc. induction n as [|n IH]; intros s acc H; simpl in H; [discriminate|].
  destruct (skip_ws s) as [|c r0]; [discriminate|].
  destruct (c =? 34); [|discriminate].
  destruct (parse_str r0) as [[k r1]|]; [|discriminate].
  destruct (skip_ws r1) as [|c1 r2]; [discriminate|].
  destruct (c1 =? 58); [|discriminate].
  destruct (parse_value n r2) as [[v' r3]|]; [|discriminate].
  destruct (skip_ws r3) as [|c3 r4]; [discriminate|].
  destruct (c3 =? 44); [eapply IH; eauto|].
  destruct (c3 =? 125); [inversion H; eauto|discriminate].
Qed.

Lemma parse_elems_arr (n : nat) (s : jsstring) (acc : list jsval) v r :
  parse_elems n s acc = Some (v, r) -> exists xs, v = JArr xs.
Proof.
  revert s acc. induction n as [|n IH]; intros s acc H; simpl in H; [discriminate|].
  destruct (parse_value n s) as [[v' r3]|]; [|discriminate].
  destruct (skip_ws r3) as [|c3 r4]; [discriminate|].
  destruct (c3 =? 44); [eapply IH; eauto|].
  destruct (c3 =? 93); [inversion H; eauto|discriminate].
Qed.

Lemma parse_number_num (s : jsstring) v r :
  parse_number s = Some (v, r) -> exists m e, v = JNum m e.
Proof.
  unfold parse_number. intros H.
  repeat match type of H with
         | context [match ?x with _ => _ end] => destruct x
         | context [if ?x then _ else _] => destruct x
         end; try discriminate; inversion H; eauto.
Qed.

Lemma parse_value_not_undefined (n : nat) (s : jsstring) v r :
  parse_value n s = Some (v, r) -> v <> JUndefined.
Proof.
  destruct n as [|n]; simpl; [discriminate|].
  destruct (skip_ws s) as [|c r0]; [discriminate|].
  intros H.
  destruct (c =? 123).
  { destruct (skip_ws r0) as [|c1 r1]; [discriminate|].
    destruct (c1 =? 125); [inversion H; discriminate|].
    destruct (parse_members_obj _ _ _ _ _ H) as [ps ->]; discriminate. }
  destruct (c =? 91).
  { destruct (skip_ws r0) as [|c1 r1]; [discriminate|].
    destruct (c1 =? 93); [inversion H; discriminate|].
    destruct (parse_elems_arr _ _ _ _ _ H) as [xs ->]; discriminate. }
  destruct (c =? 34).
  { destruct (parse_str r0) as [[u r']|]; inversion H; discriminate. }
  destruct (c =? 116).
  { destruct (strip_prefix (str "rue") r0); inversion H; discriminate. }
  destruct (c =? 102).
  { destruct (strip_prefix (str "alse") r0); inversion H; discriminate. }
  destruct (c =? 110).
  { destruct (strip_prefix (str "ull") r0); inversion H; discriminate. }
  destruct (parse_number_num _ _ _ H) as (m & e & ->); discriminate.
Qed.

(** [JSON.parse] never yields [undefined]. *)
Lemma JSON_parse_not_undefined (text : jsstring) (v : jsval) :
  JSON_parse text = inr v -> v <> JUndefined.
Proof.
  unfold JSON_parse.
  case_eq (parse_value (S (S (2 * List.length text))) text); [|discriminate].
  intros [v' rest] Hp.
  destruct (skip_ws rest); [|discriminate].
  intros H; inversion H; subst.
  exact (parse_value_not_undefined _ _ _ _ Hp).
Qed.

(** C7 (counterexample): a 200 response whose JSON body has no [languages]
    field makes [getLanguages] resolve with [undefined], which the caller
    installs as the catalog instead of the fallback. *)
Lemma catalog_body_not_validated :
  getLanguages (FetchResponse 200 (json_text "{}")) = ([], Resolved JUndefined)
  /\ languages (loadLanguages initial_ui (FetchResponse 200 (json_text "{}"))) = JUndefined.
Proof. split; reflexivity. Qed.

(** C7 (amended): [getLanguages] rejects on a network failure, on a status
    outside [200,300), on a body that is not JSON and on a body that is JSON
    [null]; any other JSON body resolves with its [languages] property as is
    (possibly [undefined]), which the caller installs as the catalog, leaving
    the error and result state and the console as they were.  When it
    rejects, the caller installs exactly the
    six fallback languages, keeps the selection (initially [en]) and the error
    state, and only writes to the console. *)
Theorem catalog_failure_fallback (st : ui) (f : fetch_end) :
  (getLanguages f = ([], Resolved (match f with
                                   | FetchResponse _ body =>
                                       match JSON_parse body with
                                       | inr data => opt_prop data (str "languages")
                                       | inl _ => JUndefined
                                       end
                                   | FetchFailed _ => JUndefined
                                   end))
   \/ exists m, getLanguages f = ([str "Error fetching languages:"], Rejected m))
  /\ (forall reason, f = FetchFailed reason -> exists m, snd (getLanguages f) = Rejected m)
  /\ (forall status body, f = FetchResponse status body ->
        status_ok status = false \/ (exists err, JSON_parse body = inl err)
        \/ JSON_parse body = inr JNull ->
        exists m, snd (getLanguages f) = Rejected m)
  /\ (forall status body data, f = FetchResponse status body -> status_ok status = true ->
        JSON_parse body = inr data -> data <> JNull ->
        getLanguages f = ([], Resolved (opt_prop data (str "languages")))
        /\ languages (loadLanguages st f) = opt_prop data (str "languages")
        /\ error (loadLanguages st f) = error st
        /\ result (loadLanguages st f) = result st
        /\ console (loadLanguages st f) = console st)
  /\ (forall m, snd (getLanguages f) = Rejected m ->
        let st' := loadLanguages st f in
        languages st' = fallback_languages
        /\ selectedLanguage st' = selectedLanguage st
        /\ error st' = error st
        /\ result st' = result st
        /\ console st' = console st ++ [str "Error fetching languages:"; str "Failed to load languages:"])
  /\ selectedLanguage initial_ui = str "en".
Proof.
  assert (Hshape : forall f, getLanguages f = ([], Resolved (match f with
                                   | FetchResponse _ body =>
                                       match JSON_parse body with
                                       | inr data => opt_prop data (str "languages")
                                       | inl _ => JUndefined
                                       end
                                   | FetchFailed _ => JUndefined
                                   end))
           \/ exists m, getLanguages f = ([str "Error fetching languages:"], Rejected m)).
  { intros [reason|status body]; simpl; [eauto|].
    destruct (status_ok status); simpl; [|eauto].
    destruct (JSON_parse body) as [err|data]; [eauto|].
    destruct data; simpl; eauto. }
  split; [apply Hshape|].
  split; [intros reason ->; simpl; eauto|].
  split.
  { intros status body -> [Hs | [[err Hp] | Hp]]; simpl.
    - rewrite Hs. simpl. eexists; reflexivity.
    - destruct (status_ok status); simpl; [rewrite Hp|]; eexists; reflexivity.
    - destruct (status_ok status); simpl; [rewrite Hp|]; eexists; reflexivity. }
  split.
  { intros status body data -> Hs Hp Hn.
    assert (E : getLanguages (FetchResponse status body)
                = ([], Resolved (opt_prop data (str "languages")))).
    { simpl. rewrite Hs, Hp. simpl.
      pose proof (JSON_parse_not_undefined _ _ Hp) as Hu.
      destruct data; try reflexivity; congruence. }
    unfold loadLanguages. rewrite E. simpl.
    split; [reflexivity|]. rewrite app_nil_r. repeat split; reflexivity. }
  split; [|reflexivity].
  intros m Hr. unfold loadLanguages.
  destruct (Hshape f) as [E | [m' E]]; rewrite E in *; simpl in Hr; [discriminate|].
  repeat split; reflexivity.
Qed.

Lemma catalog_failure_fallback_witness :
  languages (loadLanguages initial_ui (FetchFailed (str "TypeError: Failed to fetch")))
  = fallback_languages.
Proof.
  destruct (catalog_failure_fallback initial_ui (FetchFailed (str "TypeError: Failed to fetch")))
    as (_ & _ & _ & _ & Hfb & _).
  exact (proj1 (Hfb (str "TypeError: Failed to fetch") eq_refl)).
Defined.

(** ** Upload progress reset *)

(** C8: a submission that passes validation sets the progress to 0 when it
    starts and back to 0 when it ends, on success and on failure; after the
    whole [handleFileUpload] the progress is 0 again. *)
Theorem progress_reset_start_end (st : ui) (file : jsfile)
    (Hty : is_image_type (file_type file) = true) :
  uploadProgress (handleFileUpload_start st file) = NFin 0
  /\ uploading (handleFileUpload_start st file) = true
  /\ (forall st' r, uploadProgress (handleFileUpload_finish st' r) = NFin 0
                    /\ uploading (handleFileUpload_finish st' r) = false)
  /\ (forall evs fin, uploadProgress (handleFileUpload st file evs fin) = NFin 0).
Proof.
  unfold handleFileUpload_start, handleFileUpload. rewrite Hty.
  split; [reflexivity|]. split; [reflexivity|].
  split.
  - intros st' r. split; reflexivity.
  - intros evs fin. reflexivity.
Qed.

Lemma progress_reset_start_end_witness :
  is_image_type (file_type (mkFile (str "image/jpeg") (str "photo.jpg"))) = true
  /\ uploadProgress (handleFileUpload initial_ui (mkFile (str "image/jpeg") (str "photo.jpg"))
       [mkProgressEvent true 512 1024] XhrTimeout) = NFin 0.
Proof.
  split; [reflexivity|].
  apply (progress_reset_start_end initial_ui (mkFile (str "image/jpeg") (str "photo.jpg")) eq_refl).
Defined.

(** ** Copy *)

Definition shown_result_state : ui := set_result initial_ui sample_response.

(** C9 (counterexample): when [navigator.clipboard.writeText] rejects, the
    text is not placed on the clipboard and the indicator is not set. *)
Lemma copy_rejected_no_indicator :
  let st := handleCopyText shown_result_state false in
  copied st = false /\ clipboard st = [] /\ timers st = []
  /\ console st = [str "Failed to copy text:"].
Proof. repeat split; reflexivity. Qed.

(** C9 (amended): with a non-empty translated text, the copy action writes
    exactly that text and, once the clipboard write resolves, sets the
    indicator and schedules its reset after exactly 2000 ms; if the write
    rejects, only a console line is written. *)
Theorem copy_translated_text (st : ui) (text : jsstring)
    (Htext : opt_prop (opt_prop (result st) (str "data")) (str "translated_text") = JStr text)
    (Hne : text <> []) :
  let st' := handleCopyText st true in
  clipboard st' = text
  /\ copied st' = true
  /\ timers st' = timers st ++ [(2000, ResetCopied)]
  /\ copied (run_timer st' ResetCopied) = false
  /\ handleCopyText st false = set_console st (console st ++ [str "Failed to copy text:"]).
Proof.
  unfold handleCopyText. rewrite Htext.
  destruct text as [|c text']; [congruence|]. simpl.
  repeat split; reflexivity.
Qed.

Lemma copy_translated_text_witness :
  clipboard (handleCopyText shown_result_state true) = str "Hello".
Proof.
  apply (copy_translated_text shown_result_state (str "Hello")); [reflexivity | discriminate].
Defined.

(** ** Binary64 rounding is monotone *)

Section Rounding.
Open Scope Q_scope.

Lemma rne_bounds (z : Q) : (Qfloor z <= rne z <= Qfloor z + 1)%Z.
Proof.
  unfold rne. destruct (z - inject_Z (Qfloor z) ?= 1 # 2); [destruct (Z.even _)|..]; lia.
Qed.

Lemma rne_mono (z w : Q) : z <= w -> (rne z <= rne w)%Z.
Proof.
  intros H.
  pose proof (Qfloor_resp_le z w H) as Hf.
  pose proof (rne_bounds z). pose proof (rne_bounds w).
  destruct (Z.lt_ge_cases (Qfloor z) (Qfloor w)) as [Hlt|Hge]; [lia|].
  assert (E : Qfloor z = Qfloor w) by lia.
  unfold rne. rewrite E.
  set (f := Qfloor w).
  assert (Hd : z - inject_Z f <= w - inject_Z f) by lra.
  destruct (Qcompare_spec (z - inject_Z f) (1 # 2)) as [Ez|Ez|Ez];
  destruct (Qcompare_spec (w - inject_Z f) (1 # 2)) as [Ew|Ew|Ew];
  try (destruct (Z.even f)); try lia; lra.
Qed.


Lemma P_pos (e : Z) : 0 < P e.
Proof. apply Qpower_0_lt. lra. Qed.

Lemma P_le (e1 e2 : Z) : (e1 <= e2)%Z -> P e1 <= P e2.
Proof. intros H. apply Qpower_le_compat_l; [exact H | lra]. Qed.

Lemma P_plus (e1 e2 : Z) : P (e1 + e2) == P e1 * P e2.
Proof. apply Qpower_plus. lra. Qed.

Lemma P_Z (n : Z) : (0 <= n)%Z -> P n == inject_Z (2 ^ n).
Proof. intros H. symmetry. apply (Zpower_Qpower 2 n H). Qed.

Lemma Qdiv_le_cross (a b c d : Q) :
  0 < b -> 0 < d -> a * d <= c * b -> a / b <= c / d.
Proof.
  intros Hb Hd H.
  assert (E1 : a / b == (a * d) * / (b * d)) by (field; split; lra).
  assert (E2 : c / d == (c * b) * / (b * d)) by (field; split; lra).
  rewrite E1, E2. apply Qmult_le_compat_r; [exact H|].
  apply Qinv_le_0_compat. apply Qlt_le_weak. apply Qmult_lt_0_compat; assumption.
Qed.

Lemma Qdiv_lt_cross (a b c d : Q) :
  0 < b -> 0 < d -> a * d < c * b -> a / b < c / d.
Proof.
  intros Hb Hd H.
  assert (E1 : a / b == (a * d) * / (b * d)) by (field; split; lra).
  assert (E2 : c / d == (c * b) * / (b * d)) by (field; split; lra).
  rewrite E1, E2. apply Qmult_lt_compat_r; [|exact H].
  apply Qinv_lt_0_compat. apply Qmult_lt_0_compat; assumption.
Qed.

Lemma ilog2_spec (x : Q) : 0 < x -> P (ilog2 x) <= x /\ x < P (ilog2 x + 1).
Proof.
  destruct x as [p q]. intros Hx.
  assert (Hp : (0 < p)%Z).
  { unfold Qlt in Hx. simpl in Hx. lia. }
  set (lp := Z.log2 p). set (lq := Z.log2 (Zpos q)).
  destruct (Z.log2_spec p Hp) as [Hp1 Hp2].
  destruct (Z.log2_spec (Zpos q) eq_refl) as [Hq1 Hq2].
  fold lp in Hp1, Hp2. fold lq in Hq1, Hq2.
  rewrite Z.pow_succ_r in Hp2, Hq2 by apply Z.log2_nonneg.
  assert (Hlp : (0 <= lp)%Z) by apply Z.log2_nonneg.
  assert (Hlq : (0 <= lq)%Z) by apply Z.log2_nonneg.
  assert (Hx' : p # q == inject_Z p / inject_Z (Zpos q)) by apply Qmake_Qdiv.
  assert (Hqpos : 0 < inject_Z (Zpos q)) by (change 0 with (inject_Z 0); rewrite <- Zlt_Qlt; lia).
  assert (Hpow : forall n, (0 <= n)%Z -> 0 < inject_Z (2 ^ n)).
  { intros n Hn. change 0 with (inject_Z 0). rewrite <- Zlt_Qlt.
    apply Z.pow_pos_nonneg; lia. }
  (* 2^(k-1) <= x < 2^(k+1) with k = lp - lq *)
  assert (A : P (lp - lq - 1) <= p # q).
  { replace (lp - lq - 1)%Z with (lp - (lq + 1))%Z by lia.
    unfold P. rewrite Qpower_minus by lra. fold (P lp) (P (lq + 1)).
    rewrite P_Z, P_Z by lia. rewrite Hx'.
    apply Qdiv_le_cross; [apply Hpow; lia | exact Hqpos |].
    rewrite <- !inject_Z_mult, <- Zle_Qle.
    rewrite Z.pow_add_r, Z.pow_1_r by lia. nia. }
  assert (B : p # q < P (lp - lq + 1)).
  { replace (lp - lq + 1)%Z with ((lp + 1) - lq)%Z by lia.
    unfold P. rewrite Qpower_minus by lra. fold (P (lp + 1)) (P lq).
    rewrite P_Z, P_Z by lia. rewrite Hx'.
    apply Qdiv_lt_cross; [exact Hqpos | apply Hpow; lia |].
    rewrite <- !inject_Z_mult, <- Zlt_Qlt.
    rewrite Z.pow_add_r, Z.pow_1_r by lia. nia. }
  unfold ilog2. simpl Qnum. simpl Qden. fold lp lq.
  destruct (Qlt_le_dec (p # q) (P (lp - lq))) as [H|H].
  - replace (lp - lq - 1 + 1)%Z with (lp - lq)%Z by lia. split; assumption.
  - split; assumption.
Qed.

Lemma ilog2_mono (x y : Q) : 0 < x -> x <= y -> (ilog2 x <= ilog2 y)%Z.
Proof.
  intros Hx Hxy.
  destruct (ilog2_spec x Hx) as [Hx1 _].
  assert (Hy : 0 < y) by lra.
  destruct (ilog2_spec y Hy) as [_ Hy2].
  destruct (Z.le_gt_cases (ilog2 x) (ilog2 y)) as [H|H]; [exact H|].
  exfalso. pose proof (P_le (ilog2 y + 1) (ilog2 x) ltac:(lia)). lra.
Qed.

Lemma fl_pos_eq (x : Q) :
  0 < x -> fl x = inject_Z (rne (x / P (ilog2 x - 52))) * P (ilog2 x - 52).
Proof.
  intros H. unfold fl.
  destruct (Qle_bool x 0) eqn:E; [apply Qle_bool_iff in E; lra | reflexivity].
Qed.

Lemma scaled_bounds (x : Q) :
  0 < x -> P 52 <= x / P (ilog2 x - 52) /\ x / P (ilog2 x - 52) < P 53.
Proof.
  intros Hx. destruct (ilog2_spec x Hx) as [H1 H2].
  set (e := (ilog2 x - 52)%Z) in *.
  pose proof (P_pos e) as He.
  replace (ilog2 x) with (52 + e)%Z in H1 by (unfold e; lia).
  replace (ilog2 x + 1)%Z with (53 + e)%Z in H2 by (unfold e; lia).
  rewrite P_plus in H1, H2.
  split.
  - apply Qle_shift_div_l; [exact He | exact H1].
  - apply Qlt_shift_div_r; [exact He | exact H2].
Qed.

Lemma rne_scaled_bounds (x : Q) :
  0 < x -> (2 ^ 52 <= rne (x / P (ilog2 x - 52)) <= 2 ^ 53)%Z.
Proof.
  intros Hx. destruct (scaled_bounds x Hx) as [L U].
  set (y := x / P (ilog2 x - 52)) in *.
  pose proof (rne_bounds y) as Hr.
  rewrite P_Z in L, U by lia.
  split.
  - pose proof (Qfloor_resp_le _ _ L) as Hf. rewrite Qfloor_Z in Hf. lia.
  - assert (Hf : (Qfloor y < 2 ^ 53)%Z).
    { rewrite Zlt_Qlt. pose proof (Qfloor_le y). lra. }
    lia.
Qed.

Lemma fl_pos (x : Q) : 0 < x -> 0 < fl x.
Proof.
  intros Hx. rewrite (fl_pos_eq x Hx).
  apply Qmult_lt_0_compat; [|apply P_pos].
  change 0 with (inject_Z 0). rewrite <- Zlt_Qlt.
  pose proof (rne_scaled_bounds x Hx). lia.
Qed.

Lemma fl_nonneg (x : Q) : 0 <= fl x.
Proof.
  destruct (Qlt_le_dec 0 x) as [Hx|Hx].
  - apply Qlt_le_weak, fl_pos, Hx.
  - unfold fl. apply Qle_bool_iff in Hx. rewrite Hx. lra.
Qed.

Lemma fl_mono (x y : Q) : x <= y -> fl x <= fl y.
Proof.
  intros Hxy.
  destruct (Qlt_le_dec 0 x) as [Hx|Hx].
  2: { unfold fl at 1. apply Qle_bool_iff in Hx. rewrite Hx. apply fl_nonneg. }
  assert (Hy : 0 < y) by lra.
  pose proof (ilog2_mono x y Hx Hxy) as Hm.
  pose proof (rne_scaled_bounds x Hx) as Bx.
  pose proof (rne_scaled_bounds y Hy) as By.
  rewrite (fl_pos_eq x Hx), (fl_pos_eq y Hy).
  destruct (Z.eq_dec (ilog2 x) (ilog2 y)) as [E|Hlt].
  - rewrite E. apply Qmult_le_compat_r; [|apply Qlt_le_weak, P_pos].
    rewrite <- Zle_Qle. apply rne_mono.
    apply Qmult_le_compat_r; [exact Hxy|].
    apply Qinv_le_0_compat, Qlt_le_weak, P_pos.
  - set (ex := ilog2 x) in *. set (ey := ilog2 y) in *.
    pose proof (P_pos (ex - 52)) as Px. pose proof (P_pos (ey - 52)) as Py.
    apply Qle_trans with (inject_Z (2 ^ 53) * P (ex - 52)).
    { apply Qmult_le_compat_r; [rewrite <- Zle_Qle; lia | lra]. }
    apply Qle_trans with (inject_Z (2 ^ 52) * P (ey - 52)).
    2: { apply Qmult_le_compat_r; [rewrite <- Zle_Qle; lia | lra]. }
    rewrite <- !P_Z by lia. rewrite <- !P_plus.
    apply P_le. lia.
Qed.

Lemma to_number_pos (n : Z) : (0 < n)%Z -> 0 < to_number n.
Proof.
  intros H. apply fl_pos. change 0 with (inject_Z 0). rewrite <- Zlt_Qlt. exact H.
Qed.

Lemma to_number_mono (a b : Z) : (a <= b)%Z -> to_number a <= to_number b.
Proof. intros H. apply fl_mono. rewrite <- Zle_Qle. exact H. Qed.

Lemma progress_value_pct (l t : Z) : (0 < t)%Z -> progress_value l t = NFin (progress_pct l t).
Proof.
  intros Ht. pose proof (to_number_pos t Ht) as Hp. unfold progress_value.
  destruct (Qeq_bool (to_number t) 0) eqn:E; [apply Qeq_bool_iff in E; lra | reflexivity].
Qed.

Lemma progress_pct_mono (l1 l2 t : Z) :
  (0 < t)%Z -> (l1 <= l2)%Z -> (progress_pct l1 t <= progress_pct l2 t)%Z.
Proof.
  intros Ht Hl. pose proof (to_number_pos t Ht) as Hp.
  unfold progress_pct, math_round, js_mul, js_div.
  apply Qfloor_resp_le. apply Qplus_le_compat; [|lra].
  apply fl_mono. apply Qmult_le_compat_r; [|compute; discriminate].
  apply fl_mono. apply Qmult_le_compat_r; [apply to_number_mono; exact Hl|].
  apply Qinv_le_0_compat. lra.
Qed.

Lemma progress_pct_bounds (l t : Z) :
  (0 < t)%Z -> (0 <= l <= t)%Z -> (0 <= progress_pct l t <= 100)%Z.
Proof.
  intros Ht Hl. pose proof (to_number_pos t Ht) as Hp.
  unfold progress_pct, math_round, js_mul, js_div.
  split.
  - change 0%Z with (Qfloor 0). apply Qfloor_resp_le.
    pose proof (fl_nonneg (fl (to_number l / to_number t) * inject_Z 100)). lra.
  - change 100%Z with (Qfloor (fl (fl 1 * inject_Z 100) + (1 # 2))).
    apply Qfloor_resp_le. apply Qplus_le_compat; [|lra].
    apply fl_mono. apply Qmult_le_compat_r; [|compute; discriminate].
    apply fl_mono. apply Qle_shift_div_r; [exact Hp|].
    rewrite Qmult_1_l. apply to_number_mono. lia.
Qed.

End Rounding.

(** ** Upload progress *)

Lemma progress_callbacks_spec (T : Z) (Ht : (0 < T)%Z) (evs : list progress_event) :
  Forall (fun ev => total ev = T /\ (0 <= loaded ev <= T)%Z) evs ->
  StronglySorted (fun a b => (loaded a <= loaded b)%Z) evs ->
  exists zs, progress_callbacks evs = map NFin zs
    /\ StronglySorted Z.le zs
    /\ Forall (fun z => (0 <= z <= 100)%Z) zs
    /\ (forall a, Forall (fun ev => (a <= loaded ev)%Z) evs ->
        Forall (fun z => (progress_pct a T <= z)%Z) zs).
Proof.
  induction evs as [|ev evs IH]; intros Hall Hs.
  - exists []. repeat split; constructor.
  - inversion_clear Hall as [|? ? Hh Hall']. destruct Hh as [Htot Hr].
    apply StronglySorted_inv in Hs as [Hs Hhd].
    destruct (IH Hall' Hs) as (zs & Hcb & Hsz & Hbz & Hlow).
    simpl. destruct (lengthComputable ev).
    + exists (progress_pct (loaded ev) (total ev) :: zs).
      rewrite Htot, progress_value_pct, Hcb by exact Ht.
      split; [reflexivity|].
      split; [constructor; [exact Hsz | apply Hlow; exact Hhd]|].
      split; [constructor; [apply progress_pct_bounds; assumption | exact Hbz]|].
      intros a Ha. inversion_clear Ha as [|? ? Ha1 Ha'].
      constructor; [apply progress_pct_mono; assumption | apply Hlow; exact Ha'].
    + exists zs. split; [exact Hcb|]. split; [exact Hsz|]. split; [exact Hbz|].
      intros a Ha. inversion_clear Ha as [|? ? Ha1 Ha']. apply Hlow. exact Ha'.
Qed.

(** C4: each callback value is [Math.round((loaded / total) * 100)] computed
    in binary64 for the events whose length is computable; and when the total
    is a fixed positive [T] and the loaded counts are non-decreasing in
    [[0, T]], the callback values are non-decreasing integers in [[0, 100]]. *)
Theorem progress_callbacks_monotone (evs : list progress_event) (T : Z)
    (Ht : (0 < T)%Z)
    (Htotal : Forall (fun ev => total ev = T) evs)
    (Hrange : Forall (fun ev => (0 <= loaded ev <= T)%Z) evs)
    (Hsorted : Sorted (fun a b => (loaded a <= loaded b)%Z) evs) :
  progress_callbacks evs
    = map (fun ev => progress_value (loaded ev) (total ev)) (filter lengthComputable evs)
  /\ (forall ev, In ev evs -> lengthComputable ev = true ->
      progress_value (loaded ev) (total ev)
      = NFin (math_round (js_mul (js_div (to_number (loaded ev)) (to_number (total ev)))
                                 (inject_Z 100))))
  /\ exists zs, progress_callbacks evs = map NFin zs
      /\ Sorted Z.le zs
      /\ Forall (fun z => (0 <= z <= 100)%Z) zs.
Proof.
  split.
  { clear. induction evs as [|ev evs IH]; simpl; [reflexivity|].
    destruct (lengthComputable ev); simpl; rewrite IH; reflexivity. }
  split.
  { intros ev Hin _. rewrite Forall_forall in Htotal. rewrite (Htotal ev Hin).
    apply progress_value_pct. exact Ht. }
  assert (Hall : Forall (fun ev => total ev = T /\ (0 <= loaded ev <= T)%Z) evs).
  { rewrite Forall_forall in *. intros ev Hin. split; auto. }
  assert (Hss : StronglySorted (fun a b => (loaded a <= loaded b)%Z) evs).
  { apply Sorted_StronglySorted; [intros a b c; lia | exact Hsorted]. }
  destruct (progress_callbacks_spec T Ht evs Hall Hss) as (zs & Hcb & Hsz & Hbz & _).
  exists zs. split; [exact Hcb|]. split; [apply StronglySorted_Sorted; exact Hsz | exact Hbz].
Qed.

Lemma progress_callbacks_monotone_witness :
  progress_callbacks [mkProgressEvent true 0 200; mkProgressEvent false 0 0;
                      mkProgressEvent true 29 200; mkProgressEvent true 200 200]
  = map NFin [0; 14; 100]%Z
  /\ exists zs, progress_callbacks [mkProgressEvent true 0 200; mkProgressEvent true 29 200;
                                     mkProgressEvent true 200 200] = map NFin zs
      /\ Sorted Z.le zs /\ Forall (fun z => (0 <= z <= 100)%Z) zs.
Proof.
  split; [vm_compute; reflexivity|].
  refine (proj2 (proj2 (progress_callbacks_monotone
            [mkProgressEvent true 0 200; mkProgressEvent true 29 200; mkProgressEvent true 200 200]
            200 _ _ _ _))).
  - lia.
  - repeat constructor.
  - repeat constructor; simpl; lia.
  - repeat constructor; simpl; lia.
Defined.

(** * Further properties of the code *)

(** ** Settlement of [translateImage] *)

(** [translateImage] resolves exactly on a [load] with a status in
    [200,300) and a body that parses as JSON, and then with the parsed value;
    a non-2xx status, a network error and a timeout always reject. *)
Theorem translate_settle_resolved (e : xhr_end) (v : jsval) :
  translate_settle e = Resolved v <->
  exists status statusText body,
    e = XhrLoad status statusText body /\ status_ok status = true /\ JSON_parse body = inr v.
Proof.
  split.
  - destruct e as [status statusText body| |]; simpl; try discriminate.
    unfold on_load. destruct (status_ok status) eqn:Hs.
    + destruct (JSON_parse body) as [err|w] eqn:Hp; intros H; inversion H; subst; eauto 6.
    + destruct (JSON_parse body) as [err|w]; [discriminate|].
      destruct (get_prop w (str "detail")) as [d|]; [|discriminate].
      destruct (to_js_string _); discriminate.
  - intros (status & statusText & body & -> & Hs & Hp). simpl. unfold on_load.
    rewrite Hs, Hp. reflexivity.
Qed.

(** ** Outcome of a submission *)

(** A submission that passes validation sends one request, with the selected
    language, and ends with [uploading] off; a resolution leaves the parsed
    value as the result and no error, a rejection leaves its message as the
    error and no result. *)
Theorem submission_outcome (st : ui) (file : jsfile) (evs : list progress_event) (fin : xhr_end)
    (Hty : is_image_type (file_type file) = true) :
  let st' := handleFileUpload st file evs fin in
  requests st' = requests st ++ [(file, selectedLanguage st)]
  /\ uploading st' = false
  /\ match translate_settle fin with
     | Resolved v => result st' = v /\ error st' = None
     | Rejected m => result st' = JNull /\ error st' = Some m
     end.
Proof.
  unfold handleFileUpload. rewrite Hty, fold_on_progress.
  unfold handleFileUpload_start. rewrite Hty.
  destruct (translate_settle fin); repeat split; reflexivity.
Qed.

Lemma submission_outcome_witness :
  error (handleFileUpload initial_ui (mkFile (str "image/png") (str "a.png")) [] XhrError)
  = Some (str "Network error occurred").
Proof.
  exact (proj2 (proj2 (proj2 (submission_outcome initial_ui (mkFile (str "image/png") (str "a.png"))
                                [] XhrError eq_refl)))).
Defined.

(** A 2xx response whose body is a falsy JSON value ([null], [false], [0],
    an empty string) completes the submission with nothing shown: no error
    card and no result card. *)
Theorem falsy_body_shows_nothing (st : ui) (file : jsfile) (evs : list progress_event)
    (status : Z) (statusText body : jsstring) (v : jsval)
    (Hty : is_image_type (file_type file) = true)
    (Hs : status_ok status = true) (Hp : JSON_parse body = inr v) (Hf : truthy v = false) :
  let st' := handleFileUpload st file evs (XhrLoad status statusText body) in
  shows_error st' = false /\ shows_result st' = false.
Proof.
  pose proof (submission_outcome st file evs (XhrLoad status statusText body) Hty) as (_ & _ & H).
  simpl in H. unfold on_load in H. rewrite Hs, Hp in H. destruct H as [Hr He].
  unfold shows_error, shows_result. rewrite Hr, He. split; [reflexivity | exact Hf].
Qed.

Lemma falsy_body_shows_nothing_witness :
  shows_result (handleFileUpload initial_ui (mkFile (str "image/png") (str "a.png")) []
                  (XhrLoad 200 (str "OK") (str "null"))) = false.
Proof.
  exact (proj2 (falsy_body_shows_nothing initial_ui (mkFile (str "image/png") (str "a.png")) []
                  200 (str "OK") (str "null") JNull eq_refl eq_refl eq_refl eq_refl)).
Defined.

(** A non-2xx error body whose [detail] is truthy but converts to the empty
    string (such as an empty array) sets the error to [""], which the page
    does not show: the submission ends with neither an error nor a result
    displayed. *)
Theorem empty_detail_hidden (st : ui) (file : jsfile) (evs : list progress_event)
    (status : Z) (statusText body : jsstring) (v d : jsval)
    (Hty : is_image_type (file_type file) = true)
    (Hs : status_ok status = false) (Hp : JSON_parse body = inr v)
    (Hd : get_prop v (str "detail") = Some d) (Ht : truthy d = true)
    (He : to_js_string d = Some []) :
  let st' := handleFileUpload st file evs (XhrLoad status statusText body) in
  error st' = Some [] /\ shows_error st' = false /\ shows_result st' = false.
Proof.
  pose proof (submission_outcome st file evs (XhrLoad status statusText body) Hty) as (_ & _ & H).
  simpl in H. unfold on_load in H. rewrite Hs, Hp, Hd, Ht, He in H. destruct H as [Hr Herr].
  unfold shows_error, shows_result. rewrite Hr, Herr. repeat split.
Qed.

Lemma empty_detail_hidden_witness :
  error (handleFileUpload initial_ui (mkFile (str "image/png") (str "a.png")) []
           (XhrLoad 422 (str "Unprocessable Entity") (json_text "{'detail':[]}"))) = Some [].
Proof.
  exact (proj1 (empty_detail_hidden initial_ui (mkFile (str "image/png") (str "a.png")) []
                  422 (str "Unprocessable Entity") (json_text "{'detail':[]}")
                  (JObj [(str "detail", JArr [])]) (JArr [])
                  eq_refl eq_refl eq_refl eq_refl eq_refl eq_refl)).
Defined.

(** ** Overlapping submissions *)

(** Two submissions started one after the other share the page state: when
    the later one ends first, [uploading] goes off and the progress back to 0
    while the earlier request is still pending; when the earlier one ends,
    each of result and error keeps the last value written to it, so an error
    of the one and a result of the other can be shown together. *)
Theorem overlapping_submissions (st : ui) (f1 f2 : jsfile) (r1 r2 : settled jsval)
    (H1 : is_image_type (file_type f1) = true) (H2 : is_image_type (file_type f2) = true) :
  let s1 := handleFileUpload_start (handleFileUpload_start st f1) f2 in
  let s2 := handleFileUpload_finish s1 r2 in
  let s3 := handleFileUpload_finish s2 r1 in
  requests s1 = requests st ++ [(f1, selectedLanguage st); (f2, selectedLanguage st)]
  /\ uploading s2 = false /\ uploadProgress s2 = NFin 0
  /\ result s3 = match r1, r2 with
                 | Resolved v, _ => v
                 | Rejected _, Resolved v => v
                 | Rejected _, Rejected _ => JNull
                 end
  /\ error s3 = match r1, r2 with
                | Rejected m, _ => Some m
                | Resolved _, Rejected m => Some m
                | Resolved _, Resolved _ => None
                end.
Proof.
  unfold handleFileUpload_start. rewrite H1. simpl. rewrite H2. simpl.
  split; [rewrite <- app_assoc; reflexivity|].
  destruct r1, r2; repeat split; reflexivity.
Qed.

Lemma overlapping_submissions_witness :
  let s := handleFileUpload_finish
             (handleFileUpload_finish
                (handleFileUpload_start (handleFileUpload_start initial_ui
                   (mkFile (str "image/png") (str "slow.png"))) (mkFile (str "image/png") (str "fast.png")))
                (Rejected (str "Request timeout")))
             (Resolved sample_response) in
  shows_error s = true /\ shows_result s = true.
Proof.
  destruct (overlapping_submissions initial_ui (mkFile (str "image/png") (str "slow.png"))
              (mkFile (str "image/png") (str "fast.png")) (Resolved sample_response)
              (Rejected (str "Request timeout")) eq_refl eq_refl) as (_ & _ & _ & Hr & He).
  cbv zeta in Hr, He |- *. unfold shows_error, shows_result. rewrite Hr, He. split; reflexivity.
Defined.

(** ** Drag state *)

Lemma set_dragActive_same (st : ui) : set_dragActive st (dragActive st) = st.
Proof. destruct st; reflexivity. Qed.

Lemma set_dragActive_twice (st : ui) (a b : bool) :
  set_dragActive (set_dragActive st a) b = set_dragActive st b.
Proof. destruct st; reflexivity. Qed.

(** Drag events change nothing but [dragActive], and a drop always leaves
    [dragActive] off, whatever it carries. *)
Theorem drag_events_only_toggle (st : ui) (evs : list jsstring) (files : list jsfile) :
  fold_left handleDrag evs st = set_dragActive st (dragActive (fold_left handleDrag evs st))
  /\ dragActive (handleDrop st files) = false.
Proof.
  split.
  - revert st. induction evs as [|e evs IH]; intros st; cbn [fold_left].
    + symmetry. apply set_dragActive_same.
    + set (F := fold_left handleDrag evs (handleDrag st e)).
      transitivity (set_dragActive (handleDrag st e) (dragActive F)); [apply IH|].
      unfold handleDrag.
      destruct (_ || _); [apply set_dragActive_twice|].
      destruct (jsstring_eqb e (str "dragleave")); [apply set_dragActive_twice|reflexivity].
  - unfold handleDrop. destruct files as [|file files]; [reflexivity|].
    destruct (is_image_type (file_type file)) eqn:Hi; [|reflexivity].
    unfold handleFileUpload_start. rewrite Hi. reflexivity.
Qed.

(** After a sequence of drag events, [dragActive] is set by the last
    [dragenter], [dragover] or [dragleave] among them: on for the first two,
    off for the last; any other event type after it has no effect. *)
Theorem drag_last_event (st : ui) (evs rest : list jsstring) (e : jsstring)
    (He : jsstring_eqb e (str "dragenter") || jsstring_eqb e (str "dragover")
          || jsstring_eqb e (str "dragleave") = true)
    (Hrest : Forall (fun x => jsstring_eqb x (str "dragenter") || jsstring_eqb x (str "dragover")
                              || jsstring_eqb x (str "dragleave") = false) rest) :
  dragActive (fold_left handleDrag (evs ++ e :: rest) st)
  = jsstring_eqb e (str "dragenter") || jsstring_eqb e (str "dragover").
Proof.
  rewrite fold_left_app. cbn [fold_left].
  assert (Hd : dragActive (handleDrag (fold_left handleDrag evs st) e)
               = jsstring_eqb e (str "dragenter") || jsstring_eqb e (str "dragover")).
  { unfold handleDrag. destruct (jsstring_eqb e (str "dragenter") || jsstring_eqb e (str "dragover")).
    - reflexivity.
    - simpl in He. rewrite He. reflexivity. }
  rewrite <- Hd. generalize (handleDrag (fold_left handleDrag evs st) e).
  induction Hrest as [|x rest Hx _ IH]; intros s; [reflexivity|].
  cbn [fold_left]. rewrite IH. unfold handleDrag.
  apply orb_false_iff in Hx as [Hx1 Hx2]. rewrite Hx1, Hx2. reflexivity.
Qed.

Lemma drag_last_event_witness :
  dragActive (fold_left handleDrag ([str "dragenter"; str "dragover"] ++ str "dragleave" :: [str "drop"])
                initial_ui) = false.
Proof.
  apply (drag_last_event initial_ui [str "dragenter"; str "dragover"] [str "drop"] (str "dragleave")).
  - reflexivity.
  - constructor; [reflexivity | constructor].
Defined.

(** ** Page rendering *)

(** The page cannot render while the language catalog is [undefined] or
    [null]: [Object.entries] throws.  A 2xx catalog response whose body has
    no [languages] property (or [languages: null]) is stored as such by
    [loadLanguages], so the page stops rendering after it. *)
Theorem catalog_without_languages_breaks_render (st : ui) (status : Z) (body : jsstring)
    (v l : jsval) (Hs : status_ok status = true) (Hp : JSON_parse body = inr v)
    (Hl : get_prop v (str "languages") = Some l) (Hu : l = JUndefined \/ l = JNull) :
  render (loadLanguages st (FetchResponse status body)) = None.
Proof.
  unfold loadLanguages, getLanguages. rewrite Hs, Hp. simpl negb. cbv iota. rewrite Hl.
  unfold render, render_languages. simpl languages.
  destruct Hu as [-> | ->]; reflexivity.
Qed.

Lemma catalog_without_languages_breaks_render_witness :
  render (loadLanguages initial_ui (FetchResponse 200 (json_text "{'languages':null}"))) = None.
Proof.
  apply (catalog_without_languages_breaks_render initial_ui 200 (json_text "{'languages':null}")
           (JObj [(str "languages", JNull)]) JNull); try reflexivity. right; reflexivity.
Defined.

(** The result card of a well-formed response (all fields strings): the
    title and the copy button, disabled exactly when the translated text is
    empty and labelled [Copied!] while [copied] is on; then the original
    text with its source language, [Unknown] when that is empty, only when
    the original text is not empty; the translated text with the target
    language name only when it is not empty; the message only when present
    and not empty. *)
Theorem result_card_sections (st : ui) (o t s tl tln : jsstring) (m : option jsstring) :
  render_result (set_result st (mk_response o t s m tl tln)) =
  Some ([VResultTitle;
         VCopyButton (match t with [] => true | _ => false end)
                     (if copied st then str "Copied!" else str "Copy")]
        ++ match o with
           | [] => []
           | _ => [VOriginal (str "Original Text (" ++ match s with [] => str "Unknown" | _ => s end
                              ++ str "):") o]
           end
        ++ match t with
           | [] => []
           | _ => [VTranslated (str "Translated Text (" ++ tln ++ str "):") t]
           end
        ++ match m with
           | Some ((_ :: _) as m') => [VMessage m']
           | _ => []
           end).
Proof.
  unfold render_result, mk_response. cbn.
  destruct o, t, s; [..];
    (destruct m as [[|c m]|]; cbn; reflexivity).
Qed.

Lemma app_opt_some_l (x : list view_item) (b : option (list view_item)) (items : list view_item) :
  app_opt (Some x) b = Some items -> exists y, b = Some y /\ items = x ++ y.
Proof. destruct b as [y|]; simpl; intros H; inversion H; eauto. Qed.

(** The copy button and [handleCopyText] test the same value: whenever the
    result card is shown, it starts with the title and the copy button,
    labelled [Copied!] while [copied] is on and [Copy] otherwise; a disabled
    button is one whose handler would do nothing, and an enabled one copies
    the translated text, turns [copied] on and schedules its reset, when the
    clipboard accepts the text. *)
Theorem copy_button_matches_handler (st : ui) (items : list view_item)
    (Hr : render_result st = Some items) (Ht : truthy (result st) = true) :
  exists d rest,
    items = VResultTitle :: VCopyButton d (if copied st then str "Copied!" else str "Copy") :: rest
    /\ (d = true -> forall ok, handleCopyText st ok = st)
    /\ (d = false -> forall text,
          to_js_string (opt_prop (opt_prop (result st) (str "data")) (str "translated_text")) = Some text ->
          clipboard (handleCopyText st true) = text /\ copied (handleCopyText st true) = true
          /\ timers (handleCopyText st true) = timers st ++ [(2000, ResetCopied)]).
Proof.
  unfold render_result, cond_render in Hr. cbv zeta in Hr. rewrite Ht in Hr.
  apply app_opt_some_l in Hr as (y & _ & ->).
  set (tt := opt_prop (opt_prop (result st) (str "data")) (str "translated_text")).
  exists (negb (truthy tt)), y. split; [reflexivity|]. unfold handleCopyText. fold tt.
  split.
  - intros Hd ok. destruct (truthy tt); [discriminate|reflexivity].
  - intros Hd text Htext. destruct (truthy tt); [|discriminate]. rewrite Htext. repeat split.
Qed.

Lemma copy_button_matches_handler_witness :
  exists d rest, render_result (set_result initial_ui sample_response)
                 = Some (VResultTitle :: VCopyButton d (str "Copy") :: rest).
Proof.
  destruct (copy_button_matches_handler (set_result initial_ui sample_response)
              (match render_result (set_result initial_ui sample_response) with
               | Some items => items | None => [] end) eq_refl eq_refl)
    as (d & rest & Hitems & _).
  exists d, rest.
  change (str "Copy") with (if copied (set_result initial_ui sample_response)
                            then str "Copied!" else str "Copy").
  rewrite <- Hitems. reflexivity.
Defined.

Lemma opt_prop_obj (x : jsval) (k : jsstring) (ps : list (jsstring * jsval)) :
  opt_prop x k = JObj ps -> exists qs, x = JObj qs.
Proof. destruct x; discriminate || eauto. Qed.

(** The response fields are rendered without a shape check: a response
    whose [data.original_text] is an object (which [translateImage] resolves
    with, from any 2xx JSON body) makes the result card throw, and with it
    the whole page. *)
Theorem object_original_text_breaks_render (st : ui) (ps : list (jsstring * jsval))
    (H : opt_prop (opt_prop (result st) (str "data")) (str "original_text") = JObj ps) :
  render_result st = None /\ render st = None.
Proof.
  assert (Hr : render_result st = None).
  { destruct (opt_prop_obj _ _ _ H) as (qs & Hd).
    destruct (opt_prop_obj _ _ _ Hd) as (rs & Hres).
    unfold render_result, cond_render. cbv zeta. rewrite H, Hres. cbn [truthy render_child].
    destruct (render_child _); reflexivity. }
  split; [exact Hr|].
  unfold render. rewrite Hr.
  destruct (render_languages st), (render_error st); reflexivity.
Qed.

Lemma object_original_text_breaks_render_witness :
  render (handleFileUpload initial_ui (mkFile (str "image/png") (str "a.png")) []
            (XhrLoad 200 (str "OK") (json_text "{'data':{'original_text':{}}}"))) = None.
Proof.
  exact (proj2 (object_original_text_breaks_render
                  (handleFileUpload initial_ui (mkFile (str "image/png") (str "a.png")) []
                     (XhrLoad 200 (str "OK") (json_text "{'data':{'original_text':{}}}"))) [] eq_refl)).
Defined.

(** While a submission is in flight the upload card shows the processing
    status and the last progress value reported (0 before any), without the
    Choose Image button; once it ends, the card is back to the drop prompt
    and the button, and the progress bar is gone. *)
Theorem upload_area_during_submission (st : ui) (file : jsfile) (cbs : list jsnum)
    (r : settled jsval) (Hty : is_image_type (file_type file) = true) :
  let s1 := fold_left on_progress cbs (handleFileUpload_start st file) in
  render_upload_area s1
  = [VStatus (str "Processing image...");
     VProgress (jsnum_text (last cbs (NFin 0)) ++ str "% uploaded")]
  /\ render_upload_area (handleFileUpload_finish s1 r)
     = [VStatus (str "Drop your image here"); VChooseButton].
Proof.
  cbv zeta. rewrite fold_on_progress. unfold handleFileUpload_start. rewrite Hty.
  destruct r; split; reflexivity.
Qed.

Lemma upload_area_during_submission_witness :
  render_upload_area (fold_left on_progress [NFin 14; NFin 57]
                        (handleFileUpload_start initial_ui (mkFile (str "image/png") (str "a.png"))))
  = [VStatus (str "Processing image..."); VProgress (str "57% uploaded")].
Proof.
  exact (proj1 (upload_area_during_submission initial_ui (mkFile (str "image/png") (str "a.png"))
                  [NFin 14; NFin 57] (Resolved JNull) eq_refl)).
Defined.

(** ** The language select *)

Lemma jsstring_eqb_eq (a b : jsstring) : jsstring_eqb a b = true <-> a = b.
Proof.
  revert b. induction a as [|x a IH]; intros [|y b]; simpl; try (split; congruence).
  rewrite andb_true_iff, Z.eqb_eq, IH. split; [intros [-> ->]; reflexivity|].
  intros H; inversion H; split; reflexivity.
Qed.

Lemma lookup_fold_absent (k : jsstring) (ps : list (jsstring * jsval)) (acc : option jsval) :
  ~ In k (map fst ps) ->
  fold_left (fun acc kv => if jsstring_eqb k (fst kv) then Some (snd kv) else acc) ps acc = acc.
Proof.
  revert acc. induction ps as [|[k' v] ps IH]; intros acc Hk; [reflexivity|].
  simpl in *. destruct (jsstring_eqb k k') eqn:E.
  - apply jsstring_eqb_eq in E. exfalso. apply Hk. left. symmetry. exact E.
  - apply IH. intros H. apply Hk. right. exact H.
Qed.

Lemma lookup_prop_unique (k : jsstring) (v : jsval) (ps : list (jsstring * jsval)) :
  NoDup (map fst ps) -> In (k, v) ps -> lookup_prop k ps = Some v.
Proof.
  intros Hnd Hin. apply in_split in Hin as (l1 & l2 & ->).
  unfold lookup_prop. rewrite fold_left_app. cbn [fold_left fst snd].
  assert (Hr : jsstring_eqb k k = true) by (apply jsstring_eqb_eq; reflexivity).
  rewrite Hr. apply lookup_fold_absent.
  rewrite map_app in Hnd. cbn [map fst] in Hnd. apply NoDup_remove_2 in Hnd.
  intros H. apply Hnd. apply in_or_app. right. exact H.
Qed.

Lemma unique_keys_nodup (ps : list (jsstring * jsval)) (seen : list jsstring) :
  NoDup (map fst ps) -> (forall k, In k (map fst ps) -> ~ In k seen) ->
  unique_keys ps seen = map fst ps.
Proof.
  revert seen. induction ps as [|[k v] ps IH]; intros seen Hnd Hs; [reflexivity|].
  cbn [unique_keys map fst] in *.
  assert (Hex : existsb (jsstring_eqb k) seen = false).
  { apply not_true_iff_false. intros Hx. apply existsb_exists in Hx as (k' & Hk' & E).
    apply jsstring_eqb_eq in E. subst k'. exact (Hs k (or_introl eq_refl) Hk'). }
  rewrite Hex. inversion_clear Hnd as [|? ? Hk Hnd'].
  f_equal. apply IH; [exact Hnd'|].
  intros k' Hin [Heq|Hseen]; [subst; exact (Hk Hin)|].
  exact (Hs k' (or_intror Hin) Hseen).
Qed.

Lemma map_fst_names (names : list (jsstring * jsstring)) :
  map fst (map (fun '(k, n) => (k, JStr n)) names) = map fst names.
Proof. induction names as [|[k n] names IH]; simpl; [reflexivity|]. rewrite IH. reflexivity. Qed.

Lemma filter_none_index (ks : list jsstring) :
  forallb (fun k => negb (is_array_index k)) ks = true ->
  filter is_array_index ks = [] /\ filter (fun k => negb (is_array_index k)) ks = ks.
Proof.
  induction ks as [|k ks IH]; simpl; [split; reflexivity|].
  rewrite andb_true_iff. intros [Hk Hks]. destruct (IH Hks) as [H1 H2].
  rewrite H1, H2. destruct (is_array_index k); [discriminate|split; reflexivity].
Qed.

(** A catalog whose codes are distinct, are not integer-like, and map to
    strings is shown as one option per code, in the order of the catalog,
    each with its name. *)
Theorem language_options_in_order (st : ui) (names : list (jsstring * jsstring))
    (Hl : languages st = JObj (map (fun '(k, n) => (k, JStr n)) names))
    (Hnd : NoDup (map fst names))
    (Hni : forallb (fun k => negb (is_array_index k)) (map fst names) = true) :
  render_languages st = Some (map (fun '(k, n) => VLanguageOption k n) names).
Proof.
  set (ps := map (fun '(k, n) => (k, JStr n)) names).
  assert (Hps : NoDup (map fst ps)) by (unfold ps; rewrite map_fst_names; exact Hnd).
  unfold render_languages, object_entries. rewrite Hl. fold ps.
  unfold own_keys. rewrite (unique_keys_nodup ps [] Hps (fun _ _ H => H)).
  replace (map fst ps) with (map fst names) by (unfold ps; symmetry; apply map_fst_names).
  destruct (filter_none_index _ Hni) as [H1 H2]. rewrite H1, H2. simpl app.
  assert (Hgen : forall l, incl l names ->
            render_options (map (fun k => (k, match lookup_prop k ps with
                                              | Some x => x | None => JUndefined end))
                                (map fst l))
            = Some (map (fun '(k, n) => VLanguageOption k n) l)).
  { induction l as [|[k n] l IH]; intros Hinc; [reflexivity|].
    cbn [map fst render_options].
    rewrite (lookup_prop_unique k (JStr n) ps Hps).
    - cbn [render_child]. rewrite IH; [reflexivity|].
      intros x Hx. apply Hinc. right. exact Hx.
    - unfold ps. apply (in_map (fun '(k, n) => (k, JStr n)) names (k, n)). apply Hinc. left. reflexivity. }
  apply Hgen. intros x Hx. exact Hx.
Qed.

Lemma language_options_in_order_witness :
  render_languages (loadLanguages initial_ui (FetchFailed (str "TypeError: Failed to fetch")))
  = Some [VLanguageOption (str "en") (str "English"); VLanguageOption (str "es") (str "Spanish");
          VLanguageOption (str "fr") (str "French"); VLanguageOption (str "de") (str "German");
          VLanguageOption (str "zh") (str "Chinese"); VLanguageOption (str "ja") (str "Japanese")].
Proof.
  apply (language_options_in_order
           (loadLanguages initial_ui (FetchFailed (str "TypeError: Failed to fetch")))
           [(str "en", str "English"); (str "es", str "Spanish"); (str "fr", str "French");
            (str "de", str "German"); (str "zh", str "Chinese"); (str "ja", str "Japanese")]).
  - reflexivity.
  - repeat constructor; simpl; intuition discriminate.
  - reflexivity.
Defined.
